(** * Cropter: mission control page and farm mapping page

    A shallow embedding of the two pages of the operator dashboard that
    hold the control logic of the system:

    - [MissionControl] (src/copter-vision-hub/src/pages/MissionControl.tsx):
      the WebSocket session with the drone server, the keyboard-driven
      manual control loop, mission upload and the emergency stop;
    - [FarmMapping] (the mapping page): capture of the field rectangle,
      obstacles and no-fly zones on a map, the area metrics and the
      field-map export.

    Each React component is modelled as a state record holding the values
    of its [useState] and [useRef] hooks together with the part of the
    browser the handlers talk to (timers, listeners, the socket).  Every
    event handler is a function on that record; one [step] is one handler
    run to completion followed by the re-render React performs before the
    next event is delivered. *)

From Stdlib Require Import ZArith QArith Qminmax Qround Qabs Lia.
From stdpp Require Import gmap strings list pretty.

(** ** JavaScript values that cross the wire *)

Module Js.

(** Values produced by [JSON.parse] and accepted by [JSON.stringify].
    Finite JavaScript numbers are rationals, so [JNum] carries a [Q]. *)
#[warnings="-register-all"]
Inductive JSON : Type :=
| JNull
| JBool (b : bool)
| JNum (q : Q)
| JStr (s : string)
| JArr (items : list JSON)
| JObj (fields : list (string * JSON)).

(** Property read [v.k].  [None] stands for [undefined]: a missing key, or
    any property of a primitive or an array that is not an own data key.
    Reading a property of [null] throws and is handled by the callers. *)
Fixpoint assoc (k : string) (fields : list (string * JSON)) : option JSON :=
  match fields with
  | [] => None
  | (k', v) :: rest => if String.eqb k k' then Some v else assoc k rest
  end.

Definition get (k : string) (v : JSON) : option JSON :=
  match v with
  | JObj fields => assoc k fields
  | _ => None
  end.

(** Truthiness of a value in a condition ([if (v)], [!v], [v && ...]). *)
Definition truthy (v : JSON) : bool :=
  match v with
  | JNull => false
  | JBool b => b
  | JNum q => negb (Qeq_bool q 0)
  | JStr s => negb (String.eqb s "")
  | JArr _ | JObj _ => true
  end.

Definition truthy_opt (v : option JSON) : bool :=
  match v with
  | None => false
  | Some v => truthy v
  end.

(** An object literal whose property values may be [undefined];
    [JSON.stringify] leaves such properties out of the text. *)
Fixpoint omit_undefined (fields : list (string * option JSON)) : list (string * JSON) :=
  match fields with
  | [] => []
  | (k, Some v) :: rest => (k, v) :: omit_undefined rest
  | (_, None) :: rest => omit_undefined rest
  end.

Definition keys (v : JSON) : list string :=
  match v with
  | JObj fields => map fst fields
  | _ => []
  end.

End Js.

(** ** The mission control page *)

Module MissionControl.
Import Js.

(** The page opens exactly one socket, to ws://localhost:8765. *)
Inductive WebSocket : Set := DroneServerSocket.

Inductive ReadyState : Set := CONNECTING | OPEN | CLOSED.

(** A waypoint as the drawing code of the flight-plan card reads it: its
    numeric [x] and [y]. *)
Record Waypoint : Type := { wp_x : Q; wp_y : Q }.

(** The value held by the [missionStatus] hook: [null], the object literal
    built from a video frame (its message is the template
    `Waypoint ${waypoint}/${total_waypoints}`), or a mission_status message
    stored as received. *)
Inductive MissionStatus : Type :=
| StatusNull
| StatusExecuting (waypoint total_waypoints : option JSON)
| StatusMessage (data : JSON).

(** What the functions created during one render see of that render:
    [sendManualCommands] and [sendCommand] read [ws] and [droneConnected]
    of the render in which the keyboard effect ran. *)
Record Closure : Type := { cap_ws : option WebSocket; cap_droneConnected : bool }.

(** A live [setInterval] timer and a pending [setTimeout] timer. *)
Record Interval : Type := { iv_id : nat; iv_period_ms : Z; iv_callback : Closure }.
Record Timeout : Type := { to_id : nat; to_delay_ms : Z }.

Record State : Type := {
  (* useState *)
  ws : option WebSocket;
  connected : bool;
  droneConnected : bool;
  streaming : bool;
  videoFrame : option JSON;
  telemetry : JSON;
  missionStatus : MissionStatus;
  fieldMap : JSON;
  flightPlan : JSON;
  altitude : Q;
  overlap : Q;
  manualMode : bool;
  (* useRef *)
  keysPressed : gset string;
  controlInterval : option nat;
  (* browser *)
  readyState : ReadyState;
  listeners : option Closure;
  intervals : list Interval;
  timeouts : list Timeout;
  nextTimer : nat;
  sent : list JSON
}.

Definition set_ws (v : option WebSocket) (s : State) : State :=
  {| ws := v; connected := connected s; droneConnected := droneConnected s;
     streaming := streaming s; videoFrame := videoFrame s; telemetry := telemetry s;
     missionStatus := missionStatus s; fieldMap := fieldMap s; flightPlan := flightPlan s;
     altitude := altitude s; overlap := overlap s; manualMode := manualMode s;
     keysPressed := keysPressed s; controlInterval := controlInterval s;
     readyState := readyState s; listeners := listeners s; intervals := intervals s;
     timeouts := timeouts s; nextTimer := nextTimer s; sent := sent s |}.

Definition set_connected (v : bool) (s : State) : State :=
  {| ws := ws s; connected := v; droneConnected := droneConnected s; streaming := streaming s;
     videoFrame := videoFrame s; telemetry := telemetry s; missionStatus := missionStatus s;
     fieldMap := fieldMap s; flightPlan := flightPlan s; altitude := altitude s;
     overlap := overlap s; manualMode := manualMode s; keysPressed := keysPressed s;
     controlInterval := controlInterval s; readyState := readyState s;
     listeners := listeners s; intervals := intervals s; timeouts := timeouts s;
     nextTimer := nextTimer s; sent := sent s |}.

Definition set_droneConnected (v : bool) (s : State) : State :=
  {| ws := ws s; connected := connected s; droneConnected := v; streaming := streaming s;
     videoFrame := videoFrame s; telemetry := telemetry s; missionStatus := missionStatus s;
     fieldMap := fieldMap s; flightPlan := flightPlan s; altitude := altitude s;
     overlap := overlap s; manualMode := manualMode s; keysPressed := keysPressed s;
     controlInterval := controlInterval s; readyState := readyState s;
     listeners := listeners s; intervals := intervals s; timeouts := timeouts s;
     nextTimer := nextTimer s; sent := sent s |}.

Definition set_streaming (v : bool) (s : State) : State :=
  {| ws := ws s; connected := connected s; droneConnected := droneConnected s; streaming := v;
     videoFrame := videoFrame s; telemetry := telemetry s; missionStatus := missionStatus s;
     fieldMap := fieldMap s; flightPlan := flightPlan s; altitude := altitude s;
     overlap := overlap s; manualMode := manualMode s; keysPressed := keysPressed s;
     controlInterval := controlInterval s; readyState := readyState s;
     listeners := listeners s; intervals := intervals s; timeouts := timeouts s;
     nextTimer := nextTimer s; sent := sent s |}.

Definition set_videoFrame (v : option JSON) (s : State) : State :=
  {| ws := ws s; connected := connected s; droneConnected := droneConnected s;
     streaming := streaming s; videoFrame := v; telemetry := telemetry s;
     missionStatus := missionStatus s; fieldMap := fieldMap s; flightPlan := flightPlan s;
     altitude := altitude s; overlap := overlap s; manualMode := manualMode s;
     keysPressed := keysPressed s; controlInterval := controlInterval s;
     readyState := readyState s; listeners := listeners s; intervals := intervals s;
     timeouts := timeouts s; nextTimer := nextTimer s; sent := sent s |}.

Definition set_telemetry (v : JSON) (s : State) : State :=
  {| ws := ws s; connected := connected s; droneConnected := droneConnected s;
     streaming := streaming s; videoFrame := videoFrame s; telemetry := v;
     missionStatus := missionStatus s; fieldMap := fieldMap s; flightPlan := flightPlan s;
     altitude := altitude s; overlap := overlap s; manualMode := manualMode s;
     keysPressed := keysPressed s; controlInterval := controlInterval s;
     readyState := readyState s; listeners := listeners s; intervals := intervals s;
     timeouts := timeouts s; nextTimer := nextTimer s; sent := sent s |}.

Definition set_missionStatus (v : MissionStatus) (s : State) : State :=
  {| ws := ws s; connected := connected s; droneConnected := droneConnected s;
     streaming := streaming s; videoFrame := videoFrame s; telemetry := telemetry s;
     missionStatus := v; fieldMap := fieldMap s; flightPlan := flightPlan s;
     altitude := altitude s; overlap := overlap s; manualMode := manualMode s;
     keysPressed := keysPressed s; controlInterval := controlInterval s;
     readyState := readyState s; listeners := listeners s; intervals := intervals s;
     timeouts := timeouts s; nextTimer := nextTimer s; sent := sent s |}.

Definition set_fieldMap (v : JSON) (s : State) : State :=
  {| ws := ws s; connected := connected s; droneConnected := droneConnected s;
     streaming := streaming s; videoFrame := videoFrame s; telemetry := telemetry s;
     missionStatus := missionStatus s; fieldMap := v; flightPlan := flightPlan s;
     altitude := altitude s; overlap := overlap s; manualMode := manualMode s;
     keysPressed := keysPressed s; controlInterval := controlInterval s;
     readyState := readyState s; listeners := listeners s; intervals := intervals s;
     timeouts := timeouts s; nextTimer := nextTimer s; sent := sent s |}.

Definition set_flightPlan (v : JSON) (s : State) : State :=
  {| ws := ws s; connected := connected s; droneConnected := droneConnected s;
     streaming := streaming s; videoFrame := videoFrame s; telemetry := telemetry s;
     missionStatus := missionStatus s; fieldMap := fieldMap s; flightPlan := v;
     altitude := altitude s; overlap := overlap s; manualMode := manualMode s;
     keysPressed := keysPressed s; controlInterval := controlInterval s;
     readyState := readyState s; listeners := listeners s; intervals := intervals s;
     timeouts := timeouts s; nextTimer := nextTimer s; sent := sent s |}.

Definition set_altitude (v : Q) (s : State) : State :=
  {| ws := ws s; connected := connected s; droneConnected := droneConnected s;
     streaming := streaming s; videoFrame := videoFrame s; telemetry := telemetry s;
     missionStatus := missionStatus s; fieldMap := fieldMap s; flightPlan := flightPlan s;
     altitude := v; overlap := overlap s; manualMode := manualMode s;
     keysPressed := keysPressed s; controlInterval := controlInterval s;
     readyState := readyState s; listeners := listeners s; intervals := intervals s;
     timeouts := timeouts s; nextTimer := nextTimer s; sent := sent s |}.

Definition set_overlap (v : Q) (s : State) : State :=
  {| ws := ws s; connected := connected s; droneConnected := droneConnected s;
     streaming := streaming s; videoFrame := videoFrame s; telemetry := telemetry s;
     missionStatus := missionStatus s; fieldMap := fieldMap s; flightPlan := flightPlan s;
     altitude := altitude s; overlap := v; manualMode := manualMode s;
     keysPressed := keysPressed s; controlInterval := controlInterval s;
     readyState := readyState s; listeners := listeners s; intervals := intervals s;
     timeouts := timeouts s; nextTimer := nextTimer s; sent := sent s |}.

Definition set_manualMode (v : bool) (s : State) : State :=
  {| ws := ws s; connected := connected s; droneConnected := droneConnected s;
     streaming := streaming s; videoFrame := videoFrame s; telemetry := telemetry s;
     missionStatus := missionStatus s; fieldMap := fieldMap s; flightPlan := flightPlan s;
     altitude := altitude s; overlap := overlap s; manualMode := v;
     keysPressed := keysPressed s; controlInterval := controlInterval s;
     readyState := readyState s; listeners := listeners s; intervals := intervals s;
     timeouts := timeouts s; nextTimer := nextTimer s; sent := sent s |}.

Definition set_keysPressed (v : gset string) (s : State) : State :=
  {| ws := ws s; connected := connected s; droneConnected := droneConnected s;
     streaming := streaming s; videoFrame := videoFrame s; telemetry := telemetry s;
     missionStatus := missionStatus s; fieldMap := fieldMap s; flightPlan := flightPlan s;
     altitude := altitude s; overlap := overlap s; manualMode := manualMode s;
     keysPressed := v; controlInterval := controlInterval s; readyState := readyState s;
     listeners := listeners s; intervals := intervals s; timeouts := timeouts s;
     nextTimer := nextTimer s; sent := sent s |}.

Definition set_controlInterval (v : option nat) (s : State) : State :=
  {| ws := ws s; connected := connected s; droneConnected := droneConnected s;
     streaming := streaming s; videoFrame := videoFrame s; telemetry := telemetry s;
     missionStatus := missionStatus s; fieldMap := fieldMap s; flightPlan := flightPlan s;
     altitude := altitude s; overlap := overlap s; manualMode := manualMode s;
     keysPressed := keysPressed s; controlInterval := v; readyState := readyState s;
     listeners := listeners s; intervals := intervals s; timeouts := timeouts s;
     nextTimer := nextTimer s; sent := sent s |}.

Definition set_readyState (v : ReadyState) (s : State) : State :=
  {| ws := ws s; connected := connected s; droneConnected := droneConnected s;
     streaming := streaming s; videoFrame := videoFrame s; telemetry := telemetry s;
     missionStatus := missionStatus s; fieldMap := fieldMap s; flightPlan := flightPlan s;
     altitude := altitude s; overlap := overlap s; manualMode := manualMode s;
     keysPressed := keysPressed s; controlInterval := controlInterval s; readyState := v;
     listeners := listeners s; intervals := intervals s; timeouts := timeouts s;
     nextTimer := nextTimer s; sent := sent s |}.

Definition set_listeners (v : option Closure) (s : State) : State :=
  {| ws := ws s; connected := connected s; droneConnected := droneConnected s;
     streaming := streaming s; videoFrame := videoFrame s; telemetry := telemetry s;
     missionStatus := missionStatus s; fieldMap := fieldMap s; flightPlan := flightPlan s;
     altitude := altitude s; overlap := overlap s; manualMode := manualMode s;
     keysPressed := keysPressed s; controlInterval := controlInterval s;
     readyState := readyState s; listeners := v; intervals := intervals s;
     timeouts := timeouts s; nextTimer := nextTimer s; sent := sent s |}.

Definition set_intervals (v : list Interval) (s : State) : State :=
  {| ws := ws s; connected := connected s; droneConnected := droneConnected s;
     streaming := streaming s; videoFrame := videoFrame s; telemetry := telemetry s;
     missionStatus := missionStatus s; fieldMap := fieldMap s; flightPlan := flightPlan s;
     altitude := altitude s; overlap := overlap s; manualMode := manualMode s;
     keysPressed := keysPressed s; controlInterval := controlInterval s;
     readyState := readyState s; listeners := listeners s; intervals := v;
     timeouts := timeouts s; nextTimer := nextTimer s; sent := sent s |}.

Definition set_timeouts (v : list Timeout) (s : State) : State :=
  {| ws := ws s; connected := connected s; droneConnected := droneConnected s;
     streaming := streaming s; videoFrame := videoFrame s; telemetry := telemetry s;
     missionStatus := missionStatus s; fieldMap := fieldMap s; flightPlan := flightPlan s;
     altitude := altitude s; overlap := overlap s; manualMode := manualMode s;
     keysPressed := keysPressed s; controlInterval := controlInterval s;
     readyState := readyState s; listeners := listeners s; intervals := intervals s;
     timeouts := v; nextTimer := nextTimer s; sent := sent s |}.

Definition set_nextTimer (v : nat) (s : State) : State :=
  {| ws := ws s; connected := connected s; droneConnected := droneConnected s;
     streaming := streaming s; videoFrame := videoFrame s; telemetry := telemetry s;
     missionStatus := missionStatus s; fieldMap := fieldMap s; flightPlan := flightPlan s;
     altitude := altitude s; overlap := overlap s; manualMode := manualMode s;
     keysPressed := keysPressed s; controlInterval := controlInterval s;
     readyState := readyState s; listeners := listeners s; intervals := intervals s;
     timeouts := timeouts s; nextTimer := v; sent := sent s |}.

Definition set_sent (v : list JSON) (s : State) : State :=
  {| ws := ws s; connected := connected s; droneConnected := droneConnected s;
     streaming := streaming s; videoFrame := videoFrame s; telemetry := telemetry s;
     missionStatus := missionStatus s; fieldMap := fieldMap s; flightPlan := flightPlan s;
     altitude := altitude s; overlap := overlap s; manualMode := manualMode s;
     keysPressed := keysPressed s; controlInterval := controlInterval s;
     readyState := readyState s; listeners := listeners s; intervals := intervals s;
     timeouts := timeouts s; nextTimer := nextTimer s; sent := v |}.

(** State right after the component has mounted: the socket is being
    opened, no listener is installed, browser timer ids start at 1. *)
Definition init : State :=
  {| ws := None; connected := false; droneConnected := false; streaming := false;
     videoFrame := Some (JStr ""); telemetry := JNull; missionStatus := StatusNull;
     fieldMap := JNull; flightPlan := JNull; altitude := 200; overlap := 30;
     manualMode := false; keysPressed := ∅; controlInterval := None;
     readyState := CONNECTING; listeners := None; intervals := []; timeouts := [];
     nextTimer := 1; sent := [] |}.

(** [websocket.send(JSON.stringify(frame))]: the frame goes out on an open
    socket; a socket that has closed discards it.  The page never calls
    [send] on a socket that is still connecting (see [not_opened_ok]). *)
Definition socket_send (frame : JSON) (s : State) : State :=
  match readyState s with
  | OPEN => set_sent (sent s ++ [frame]) s
  | _ => s
  end.

Definition is_str (lit : string) (v : option JSON) : bool :=
  match v with
  | Some (JStr x) => String.eqb x lit
  | _ => false
  end.

(** *** Socket callbacks (lines 68-105) *)

Definition onopen (s : State) : State :=
  set_ws (Some DroneServerSocket) (set_connected true s).

(** [parsed] is the outcome of [JSON.parse(event.data)]: [None] when it
    throws.  Both that exception and the [TypeError] of reading [.type]
    from [null] are caught by the handler's [try]. *)
Definition onmessage (parsed : option JSON) (s : State) : State :=
  match parsed with
  | None => s
  | Some JNull => s
  | Some data =>
      if is_str "video_frame" (get "type" data) then
        let s := set_videoFrame (get "data" data) s in
        let s := match get "telemetry" data with
                 | Some t => if truthy t then set_telemetry t s else s
                 | None => s
                 end in
        if truthy_opt (get "mission_active" data)
        then set_missionStatus
               (StatusExecuting (get "waypoint" data) (get "total_waypoints" data)) s
        else s
      else if is_str "mission_status" (get "type" data) then
        set_missionStatus (StatusMessage data) s
      else s
  end.

Definition onclose (s : State) : State :=
  set_ws None (set_connected false s).

(** *** Commands (lines 143-172) *)

Definition sendCommand (c : Closure) (action : string) (params : list (string * JSON))
    (s : State) : State :=
  match cap_ws c with
  | None => s
  | Some _ => socket_send (JObj (("action", JStr action) :: params)) s
  end.

Definition has (keys : gset string) (k : string) : bool := bool_decide (k ∈ keys).
Arguments has : simpl never.

Definition when (b : bool) (f : State → State) (s : State) : State :=
  if b then f s else s.

Definition sendManualCommands (c : Closure) (s : State) : State :=
  match cap_ws c with
  | None => s
  | Some _ =>
      if negb (cap_droneConnected c) then s else
      let keys := keysPressed s in
      let s := when (has keys "w") (sendCommand c "move_forward" [("distance", JNum 20)]) s in
      let s := when (has keys "s") (sendCommand c "move_back" [("distance", JNum 20)]) s in
      let s := when (has keys "a") (sendCommand c "move_left" [("distance", JNum 20)]) s in
      let s := when (has keys "d") (sendCommand c "move_right" [("distance", JNum 20)]) s in
      let s := when (has keys "arrowup") (sendCommand c "move_up" [("distance", JNum 20)]) s in
      let s := when (has keys "arrowdown") (sendCommand c "move_down" [("distance", JNum 20)]) s in
      let s := when (has keys "arrowleft") (sendCommand c "rotate_ccw" [("degrees", JNum 15)]) s in
      let s := when (has keys "arrowright") (sendCommand c "rotate_cw" [("degrees", JNum 15)]) s in
      when (has keys " ") (fun s => set_manualMode false (sendCommand c "land" [] s)) s
  end.

(** *** Keyboard effect (lines 113-141) *)

Definition setInterval (period_ms : Z) (c : Closure) (s : State) : nat * State :=
  let id := nextTimer s in
  (id, set_nextTimer (S id)
         (set_intervals (intervals s ++ [{| iv_id := id; iv_period_ms := period_ms;
                                            iv_callback := c |}]) s)).

Definition clearInterval (id : nat) (s : State) : State :=
  set_intervals (List.filter (fun iv => negb (iv_id iv =? id)%nat) (intervals s)) s.

(** The handlers read one thing of the keyboard event, [e.key.toLowerCase()]:
    [key] is that string, as the runtime computed it. *)
Definition handleKeyDown (c : Closure) (key : string) (s : State) : State :=
  let s := set_keysPressed ({[key]} ∪ keysPressed s) s in
  match controlInterval s with
  | None => let '(id, s) := setInterval 200 c s in set_controlInterval (Some id) s
  | Some _ => s
  end.

Definition handleKeyUp (key : string) (s : State) : State :=
  let s := set_keysPressed (keysPressed s ∖ {[key]}) s in
  if bool_decide (size (keysPressed s) = 0%nat) then
    match controlInterval s with
    | Some id => set_controlInterval None (clearInterval id s)
    | None => s
    end
  else s.

(** The function the effect returned on its last run. *)
Definition effect_cleanup (s : State) : State :=
  let s := set_listeners None s in
  match controlInterval s with
  | Some id => clearInterval id s
  | None => s
  end.

Definition keyboard_effect (s : State) : State :=
  if negb (manualMode s) || negb (droneConnected s) then s
  else set_listeners (Some {| cap_ws := ws s; cap_droneConnected := droneConnected s |}) s.

(** React re-runs the effect when one of its dependencies
    [[manualMode, droneConnected]] differs from the previous render, after
    running the cleanup the previous run returned (if it returned one). *)
Definition rerender (before after : State) : State :=
  if bool_decide ((manualMode before, droneConnected before)
                  = (manualMode after, droneConnected after))
  then after
  else keyboard_effect (match listeners after with
                        | Some _ => effect_cleanup after
                        | None => after
                        end).

(** *** Button handlers (lines 174-252) *)

Definition setTimeout (delay_ms : Z) (s : State) : State :=
  let id := nextTimer s in
  set_nextTimer (S id) (set_timeouts (timeouts s ++ [{| to_id := id; to_delay_ms := delay_ms |}]) s).

Definition connectDrone (s : State) : State :=
  match ws s with
  | None => s
  | Some _ => setTimeout 2000 (socket_send (JObj [("action", JStr "connect")]) s)
  end.

Definition startStream (s : State) : State :=
  match ws s with
  | None => s
  | Some _ => set_streaming true (socket_send (JObj [("action", JStr "start_stream")]) s)
  end.

(** [now] is the value of [Date.now()].  [flightPlan.waypoints] is
    forwarded as it was received; like [fieldMap?.field_id] it is
    [undefined] when the stored value has no such property, and then
    [JSON.stringify] leaves the field out. *)
Definition executeMission (now : Z) (s : State) : State :=
  match ws s with
  | None => s
  | Some _ =>
      if negb (truthy (flightPlan s)) then s else
      socket_send
        (JObj [("action", JStr "execute_mission");
               ("mission_data",
                JObj (omit_undefined
                        [("mission_id", Some (JStr ("mission_" +:+ pretty now)));
                         ("field_id", match fieldMap s with
                                      | JNull => None
                                      | m => get "field_id" m
                                      end);
                         ("waypoints", get "waypoints" (flightPlan s));
                         ("altitude", Some (JNum (altitude s)))]))]) s
  end.

Definition emergencyStop (s : State) : State :=
  match ws s with
  | None => s
  | Some _ => set_manualMode false (socket_send (JObj [("action", JStr "emergency_stop")]) s)
  end.

Definition takeoff (s : State) : State :=
  match ws s with
  | None => s
  | Some _ =>
      sendCommand {| cap_ws := ws s; cap_droneConnected := droneConnected s |} "takeoff" [] s
  end.

(** *** Events *)

(** What the browser delivers to the page.  [WsMessage] and
    [FieldMapFileRead] carry the outcome of [JSON.parse] on the text
    received, [KeyDown] and [KeyUp] the lower-cased [key] of the keyboard
    event, [FlightPathResponse] the value [response.json()] resolved to
    (lines 219-220 store it unchecked, whatever the status of the reply). *)
Inductive Event : Type :=
| WsOpen
| WsMessage (parsed : option JSON)
| WsClose
| WsError
| KeyDown (key : string)
| KeyUp (key : string)
| IntervalTick (id : nat)
| TimeoutFire (id : nat)
| ClickConnectDrone
| ClickStartStream
| ClickTakeoff
| ClickManualMode
| FieldMapFileRead (parsed : option JSON)
| FlightPathResponse (body : JSON)
| SlideAltitude (v : Q)
| SlideOverlap (v : Q)
| ClickExecuteMission (now : Z)
| ClickEmergencyStop.

Definition find_interval (id : nat) (s : State) : option Interval :=
  List.find (fun iv => (iv_id iv =? id)%nat) (intervals s).

Definition is_pending (id : nat) (s : State) : bool :=
  existsb (fun t => (to_id t =? id)%nat) (timeouts s).

(** The handler an event runs.  A click on a disabled button, a key event
    without listeners, a timer that is not live, or a socket event its
    ready state excludes runs nothing. *)
Definition handle (ev : Event) (s : State) : State :=
  match ev with
  | WsOpen =>
      match readyState s with
      | CONNECTING => onopen (set_readyState OPEN s)
      | _ => s
      end
  | WsMessage parsed =>
      match readyState s with
      | OPEN => onmessage parsed s
      | _ => s
      end
  | WsClose =>
      match readyState s with
      | CLOSED => s
      | _ => onclose (set_readyState CLOSED s)
      end
  | WsError => s
  | KeyDown key =>
      match listeners s with
      | Some c => handleKeyDown c key s
      | None => s
      end
  | KeyUp key =>
      match listeners s with
      | Some _ => handleKeyUp key s
      | None => s
      end
  | IntervalTick id =>
      match find_interval id s with
      | Some iv => sendManualCommands (iv_callback iv) s
      | None => s
      end
  | TimeoutFire id =>
      if is_pending id s
      then set_droneConnected true
             (set_timeouts (List.filter (fun t => negb (to_id t =? id)%nat) (timeouts s)) s)
      else s
  | ClickConnectDrone =>
      if connected s && negb (droneConnected s) then connectDrone s else s
  | ClickStartStream =>
      if droneConnected s && negb (streaming s) then startStream s else s
  | ClickTakeoff => if droneConnected s then takeoff s else s
  | ClickManualMode =>
      if droneConnected s then set_manualMode (negb (manualMode s)) s else s
  | FieldMapFileRead parsed =>
      match parsed with
      | Some json => set_fieldMap json s
      | None => s
      end
  | FlightPathResponse body => set_flightPlan body s
  | SlideAltitude v => set_altitude v s
  | SlideOverlap v => set_overlap v s
  | ClickExecuteMission now =>
      if droneConnected s && truthy (flightPlan s)
      then executeMission now s else s
  | ClickEmergencyStop => emergencyStop s
  end.

Definition step (s : State) (ev : Event) : State := rerender s (handle ev s).

Definition run (s : State) (trace : list Event) : State := fold_left step trace s.

(** *** Battery warning of the flight-plan card (lines 747-765) *)

Inductive BatteryAlert : Set := MissionImpossible | HighBatteryUsage.

Definition gt (a b : Q) : bool := negb (Qle_bool a b).

(** [v > n] for a property read [v] of a parsed value and a number [n].
    A number is compared as it is, [null] as 0, a boolean as 0 or 1;
    [undefined] and an object convert to NaN, which is greater than
    nothing.  A string or an array is first converted through the grammar
    of numeric text, which is not embedded here: [None]. *)
Definition js_gt (v : option JSON) (n : Q) : option bool :=
  match v with
  | None => Some false
  | Some JNull => Some (gt 0 n)
  | Some (JBool b) => Some (gt (if b then 1 else 0) n)
  | Some (JNum q) => Some (gt q n)
  | Some (JObj _) => Some false
  | Some (JStr _) | Some (JArr _) => None
  end.

(** The ternary of lines 748-765 on the stored body: the alert shown, if
    any; [None] where [js_gt] leaves the comparison open. *)
Definition battery_alert (body : JSON) : option (option BatteryAlert) :=
  match js_gt (get "estimated_battery_pct" body) 100 with
  | None => None
  | Some true => Some (Some MissionImpossible)
  | Some false =>
      match js_gt (get "estimated_battery_pct" body) 80 with
      | None => None
      | Some true => Some (Some HighBatteryUsage)
      | Some false => Some None
      end
  end.

(** The card is rendered under [flightPlan && (...)] (line 463). *)
Definition render_battery_alert (s : State) : option (option BatteryAlert) :=
  if truthy (flightPlan s) then battery_alert (flightPlan s) else Some None.

(** *** Reference descriptions used by the statements below *)

(** The control keys in the order [sendManualCommands] tests them, each
    with the frame it sends. *)
Definition key_table : list (string * JSON) :=
  [("w", JObj [("action", JStr "move_forward"); ("distance", JNum 20)]);
   ("s", JObj [("action", JStr "move_back"); ("distance", JNum 20)]);
   ("a", JObj [("action", JStr "move_left"); ("distance", JNum 20)]);
   ("d", JObj [("action", JStr "move_right"); ("distance", JNum 20)]);
   ("arrowup", JObj [("action", JStr "move_up"); ("distance", JNum 20)]);
   ("arrowdown", JObj [("action", JStr "move_down"); ("distance", JNum 20)]);
   ("arrowleft", JObj [("action", JStr "rotate_ccw"); ("degrees", JNum 15)]);
   ("arrowright", JObj [("action", JStr "rotate_cw"); ("degrees", JNum 15)]);
   (" ", JObj [("action", JStr "land")])].

(** One frame per held control key. *)
Definition commands_for (keys : gset string) : list JSON :=
  map snd (List.filter (fun entry => has keys (fst entry)) key_table).

(** The callback of a live timer can reach the link: its closure holds the
    socket and saw the drone connected, and the socket is still open. *)
Definition can_send (c : Closure) (s : State) : bool :=
  bool_decide (is_Some (cap_ws c)) && cap_droneConnected c
  && match readyState s with OPEN => true | _ => false end.

(** Handing a list of frames to the socket, oldest first. *)
Definition send_all (frames : list JSON) (s : State) : State :=
  fold_left (fun s frame => socket_send frame s) frames s.

(** What one run of [sendManualCommands] amounts to: nothing unless the
    closure holds the socket and saw the drone connected; otherwise the
    frames of the held keys go to the socket and Space turns manual mode
    off. *)
Definition tick_result (c : Closure) (s : State) : State :=
  match cap_ws c with
  | None => s
  | Some _ =>
      if negb (cap_droneConnected c) then s else
      let s1 := send_all (commands_for (keysPressed s)) s in
      if has (keysPressed s) " " then set_manualMode false s1 else s1
  end.

(** Frames one tick of timer [id] hands to the socket. *)
Definition tick_frames (id : nat) (s : State) : list JSON :=
  match find_interval id s with
  | Some iv => if can_send (iv_callback iv) s then commands_for (keysPressed s) else []
  | None => []
  end.

(** The two events the window listeners handle. *)
Definition is_key_event (ev : Event) : bool :=
  match ev with KeyDown _ | KeyUp _ => true | _ => false end.

(** The event is the firing of a pending [setTimeout] timer. *)
Definition fires_pending (ev : Event) (s : State) : bool :=
  match ev with
  | TimeoutFire id => is_pending id s
  | _ => false
  end.


Definition emergency_frame : JSON := JObj [("action", JStr "emergency_stop")].

(** While the socket has not opened yet the page holds no socket, no
    drone, no timer and no listener, so nothing can call [send] on a
    connecting socket. *)
Definition not_opened_ok (s : State) : Prop :=
  readyState s = CONNECTING →
  ws s = None ∧ connected s = false ∧ droneConnected s = false ∧ manualMode s = false
  ∧ timeouts s = [] ∧ listeners s = None ∧ intervals s = [].

(** Timer bookkeeping of the keyboard effect: at most one interval is
    live; it is the one the ref names, it ticks every 200 ms, its id is
    below the next id the browser hands out, and it lives only while the
    listeners are installed. *)
Definition interval_ok (s : State) : Prop :=
  match intervals s with
  | [] => True
  | [iv] => controlInterval s = Some (iv_id iv) ∧ is_Some (listeners s)
            ∧ (iv_id iv < nextTimer s)%nat ∧ iv_period_ms iv = 200%Z
  | _ => False
  end.

(** The listeners are installed only while manual mode is on. *)
Definition timers_ok (s : State) : Prop :=
  interval_ok s ∧ (is_Some (listeners s) → manualMode s = true).

(** Every live interval was created at or after timer id [n]. *)
Definition timers_from (n : nat) (s : State) : Prop :=
  (n ≤ nextTimer s)%nat ∧ Forall (fun iv => (n ≤ iv_id iv)%nat) (intervals s).

(** Samples for the closed examples. *)
Definition sample_plan : JSON :=
  JObj [("waypoints", JArr [JObj [("x", JNum 0); ("y", JNum 0)];
                            JObj [("x", JNum 10); ("y", JNum 0)]]);
        ("total_waypoints", JNum 2); ("total_distance_m", JNum 10);
        ("estimated_duration_sec", JNum 25); ("estimated_battery_pct", JNum 135);
        ("batteries_needed", JNum 2)].

(** The body the flight-path service answers with when it fails. *)
Definition sample_error : JSON :=
  JObj [("error_code", JStr "UnplannableFieldError");
        ("error_message", JStr "no feasible path")].


Definition sample_ack : JSON :=
  JObj [("type", JStr "mission_status"); ("status", JStr "connected");
        ("message", JStr "Drone connected")].

(** The operator opens the page, connects and turns manual mode on. *)
Definition manual_session : list Event :=
  [WsOpen; ClickConnectDrone; TimeoutFire 1; ClickManualMode].

(** *** Further invariants of the page *)

(** The [ws] and [connected] hooks mirror the socket: both are set while
    it is open and cleared otherwise. *)
Definition socket_ok (s : State) : Prop :=
  match readyState s with
  | OPEN => ws s = Some DroneServerSocket ∧ connected s = true
  | _ => ws s = None ∧ connected s = false
  end.

(** Manual mode is only ever on with the drone connected, and a live timer
    means some key is recorded as held. *)
Definition manual_ok (s : State) : Prop :=
  (manualMode s = true → droneConnected s = true)
  ∧ (intervals s ≠ [] → keysPressed s ≠ ∅).

(** The telemetry a parsed message brings: the [telemetry] value of a
    video frame, when it is truthy. *)
Definition carried_telemetry (parsed : option JSON) : option JSON :=
  match parsed with
  | Some data =>
      if is_str "video_frame" (get "type" data) then
        match get "telemetry" data with
        | Some t => if truthy t then Some t else None
        | None => None
        end
      else None
  | None => None
  end.

Definition connect_frame : JSON := JObj [("action", JStr "connect")].
Definition land_frame : JSON := JObj [("action", JStr "land")].

Definition has_action (action : string) (frame : JSON) : bool :=
  is_str action (get "action" frame).

(** How many frames with the given action went out. *)
Definition count_action (action : string) (frames : list JSON) : nat :=
  length (List.filter (has_action action) frames).

(** The ref names a timer that is no longer live. *)
Definition stale_ref (s : State) : Prop :=
  is_Some (controlInterval s) ∧ intervals s = [].

(** A session in which manual mode was switched off and on again while W
    was held. *)
Definition manual_toggled_while_held : list Event :=
  manual_session ++ [KeyDown "w"; ClickManualMode; ClickManualMode].

(** *** The flight-plan card: duration and drawing bounds (lines 504-512, 801) *)

(** [text.padStart(targetLength, pad)] for a one-character pad. *)
Definition padStart (targetLength : nat) (pad : Ascii.ascii) (text : string) : string :=
  String.concat "" (List.repeat (String pad "") (targetLength - String.length text)) +:+ text.

(** The character '0'. *)
Definition zero_char : Ascii.ascii := Ascii.ascii_of_nat 48.

(** The duration shown on the card:
    `${Math.floor(sec / 60)}:${String(sec % 60).padStart(2, '0')}`
    for [sec] a whole number of seconds of magnitude below 2^53.  There
    [sec] is a double, the rounded quotient [sec / 60] has the floor of the
    exact one (it lies below 2^48, where a double is off by at most 1/64,
    less than the 1/60 that separates the exact quotient from the next
    whole number), [%] is exact, and both numbers print in plain decimal.
    Beyond that range the double quotient is no longer the integer one:
    [None]. *)
Definition duration_text (sec : Z) : option string :=
  if (Z.abs sec <? 2 ^ 53)%Z
  then Some (pretty (sec / 60)%Z +:+ ":" +:+ padStart 2 zero_char (pretty (Z.rem sec 60)))
  else None.

Definition digit (d : Z) : Ascii.ascii := Ascii.ascii_of_nat (48 + Z.to_nat d).

(** Two decimal digits. *)
Definition two_digits (r : Z) : string :=
  String (digit (r / 10)) (String (digit (r mod 10)) "").

(** [wp.x || 0] *)
Definition or_zero (x : Q) : Q := if Qeq_bool x 0 then 0%Q else x.

(** The accumulator of the [reduce] over the waypoints; [None] stands for
    the infinity a bound starts from. *)
Record WpBounds : Type := {
  minX : option Q;
  maxX : option Q;
  minY : option Q;
  maxY : option Q
}.

Definition js_min (acc : option Q) (v : Q) : option Q :=
  match acc with
  | None => Some v
  | Some m => Some (Qmin m v)
  end.

Definition js_max (acc : option Q) (v : Q) : option Q :=
  match acc with
  | None => Some v
  | Some m => Some (Qmax m v)
  end.

Definition wpBounds (wps : list Waypoint) : WpBounds :=
  fold_left
    (fun acc wp =>
       {| minX := js_min (minX acc) (or_zero (wp_x wp));
          maxX := js_max (maxX acc) (or_zero (wp_x wp));
          minY := js_min (minY acc) (or_zero (wp_y wp));
          maxY := js_max (maxY acc) (or_zero (wp_y wp)) |})
    wps
    {| minX := None; maxX := None; minY := None; maxY := None |}.

(** The bounds are finite and hold every waypoint. *)
Definition bounds_hold (b : WpBounds) (wps : list Waypoint) : Prop :=
  match minX b, maxX b, minY b, maxY b with
  | Some x0, Some x1, Some y0, Some y1 =>
      Forall (fun wp => (x0 <= wp_x wp <= x1)%Q ∧ (y0 <= wp_y wp <= y1)%Q) wps
  | _, _, _, _ => False
  end.

End MissionControl.

(** ** The farm mapping page *)

Module FarmMapping.
#[local] Open Scope Q_scope.

(** *** Leaflet geometry

    Latitudes and longitudes are finite doubles, hence rationals; their
    comparisons, [Math.min] and [Math.max] are exact. *)

Record LatLng : Type := { lat : Q; lng : Q }.

(** [new LatLngBounds(corner1, corner2)]: Leaflet extends an empty box by
    each corner in turn, keeping the smallest and largest coordinates. *)
Record LatLngBounds : Type := { southWest : LatLng; northEast : LatLng }.

Definition toBounds (corner1 corner2 : LatLng) : LatLngBounds :=
  {| southWest := {| lat := Qmin (lat corner2) (lat corner1);
                     lng := Qmin (lng corner2) (lng corner1) |};
     northEast := {| lat := Qmax (lat corner2) (lat corner1);
                     lng := Qmax (lng corner2) (lng corner1) |} |}.

Definition getSouthWest (b : LatLngBounds) : LatLng := southWest b.
Definition getNorthEast (b : LatLngBounds) : LatLng := northEast b.

(** [bounds.contains(latlng)] *)
Definition contains (b : LatLngBounds) (p : LatLng) : bool :=
  Qle_bool (lat (southWest b)) (lat p) && Qle_bool (lat p) (lat (northEast b))
  && Qle_bool (lng (southWest b)) (lng p) && Qle_bool (lng p) (lng (northEast b)).

(** Rounded double arithmetic, the library functions built on it, and
    Leaflet's great-circle [distanceTo].  The page is modelled over any
    interpretation of them; [toFixed n x] is [parseFloat(x.toFixed(n))]. *)
Class Float64 : Type := {
  fadd : Q → Q → Q;
  fsub : Q → Q → Q;
  fmul : Q → Q → Q;
  fdiv : Q → Q → Q;
  fcos : Q → Q;
  PI : Q;
  toFixed : nat → Q → Q;
  distanceTo : LatLng → LatLng → Q
}.

(** [a > b] on numbers. *)
Definition gt (a b : Q) : bool := negb (Qle_bool a b).

(** *** Component state (lines 19-41) *)

Definition Point : Type := (Q * Q)%type.

Record Obstacle : Type := { obs_id : string; obs_boundary : list Point; obs_area : Q }.

Record NoFlyZone : Type := {
  nfz_id : string;
  nfz_boundary : list Point;
  nfz_area : Q;
  nfz_reason : option string
}.

Inductive Mode : Set := base | obstacle | nofly.
Inductive PinName : Set := a | b.

Record State : Type := {
  pinA : LatLng;
  pinB : LatLng;
  mode : Mode;
  nextPin : PinName;
  obstacles : list Obstacle;
  noFlyZones : list NoFlyZone;
  obstacleStart : option LatLng;
  noFlyStart : option LatLng
}.

Definition set_pinA (v : LatLng) (s : State) : State :=
  {| pinA := v; pinB := pinB s; mode := mode s; nextPin := nextPin s; obstacles := obstacles s;
     noFlyZones := noFlyZones s; obstacleStart := obstacleStart s;
     noFlyStart := noFlyStart s |}.

Definition set_pinB (v : LatLng) (s : State) : State :=
  {| pinA := pinA s; pinB := v; mode := mode s; nextPin := nextPin s; obstacles := obstacles s;
     noFlyZones := noFlyZones s; obstacleStart := obstacleStart s;
     noFlyStart := noFlyStart s |}.

Definition set_mode (v : Mode) (s : State) : State :=
  {| pinA := pinA s; pinB := pinB s; mode := v; nextPin := nextPin s; obstacles := obstacles s;
     noFlyZones := noFlyZones s; obstacleStart := obstacleStart s;
     noFlyStart := noFlyStart s |}.

Definition set_nextPin (v : PinName) (s : State) : State :=
  {| pinA := pinA s; pinB := pinB s; mode := mode s; nextPin := v; obstacles := obstacles s;
     noFlyZones := noFlyZones s; obstacleStart := obstacleStart s;
     noFlyStart := noFlyStart s |}.

Definition set_obstacles (v : list Obstacle) (s : State) : State :=
  {| pinA := pinA s; pinB := pinB s; mode := mode s; nextPin := nextPin s; obstacles := v;
     noFlyZones := noFlyZones s; obstacleStart := obstacleStart s;
     noFlyStart := noFlyStart s |}.

Definition set_noFlyZones (v : list NoFlyZone) (s : State) : State :=
  {| pinA := pinA s; pinB := pinB s; mode := mode s; nextPin := nextPin s;
     obstacles := obstacles s; noFlyZones := v; obstacleStart := obstacleStart s;
     noFlyStart := noFlyStart s |}.

Definition set_obstacleStart (v : option LatLng) (s : State) : State :=
  {| pinA := pinA s; pinB := pinB s; mode := mode s; nextPin := nextPin s;
     obstacles := obstacles s; noFlyZones := noFlyZones s; obstacleStart := v;
     noFlyStart := noFlyStart s |}.

Definition set_noFlyStart (v : option LatLng) (s : State) : State :=
  {| pinA := pinA s; pinB := pinB s; mode := mode s; nextPin := nextPin s;
     obstacles := obstacles s; noFlyZones := noFlyZones s; obstacleStart := obstacleStart s;
     noFlyStart := v |}.

Definition defaultPinA : LatLng := {| lat := 36.7367; lng := -119.7851 |}.
Definition defaultPinB : LatLng := {| lat := 36.7386; lng := -119.7823 |}.

Definition init : State :=
  {| pinA := defaultPinA; pinB := defaultPinB; mode := base; nextPin := a;
     obstacles := []; noFlyZones := []; obstacleStart := None; noFlyStart := None |}.

(** The four values of the [metrics] hook.  The effect of lines 74-76
    stores [calculateMetrics ()] after every render in which a pin or a
    region list was set, so the hook is a function of the rest of the state
    and is not kept in [State]. *)
Record Metrics : Type := { width : Q; length : Q; baseArea : Q; netArea : Q }.

(** Export format (lines 121-131). *)
Record Region : Type := { type : string; boundary : list Point; reason : option string }.

Record FieldMap : Type := {
  field_id : string;
  name : string;
  fm_boundary : list Point;
  fm_obstacles : list Region;
  fm_no_fly_zones : list Region;
  reference_point : Q * Q
}.

Inductive Event : Type :=
| MapClick (latlng : LatLng) (uuid : string)
| DragEndA (latlng : LatLng)
| DragEndB (latlng : LatLng)
| ClickLockBoundary
| ClickReset
| ClickObstacles
| ClickNoFly
| ClickExport
| ClickRestartMapping
| ClickRemoveObstacle (id : string)
| ClickRemoveNoFly (id : string).

Section Page.
Context `{ops : Float64}.

(** Corners and area of the rectangle spanned by two clicks, as lines
    166-174 and 203-211 compute them. *)
Definition corners (b : LatLngBounds) : LatLng * LatLng * LatLng * LatLng :=
  let sw := getSouthWest b in
  let ne := getNorthEast b in
  let nw := {| lat := lat ne; lng := lng sw |} in
  let se := {| lat := lat sw; lng := lng ne |} in
  (sw, se, ne, nw).

Definition rect_width (b : LatLngBounds) : Q :=
  let '(sw, se, _, _) := corners b in distanceTo sw se.

Definition rect_length (b : LatLngBounds) : Q :=
  let '(sw, _, _, nw) := corners b in distanceTo sw nw.

Definition rect_area (b : LatLngBounds) : Q := fmul (rect_width b) (rect_length b).

Definition ring (b : LatLngBounds) : list Point :=
  let '(sw, se, ne, nw) := corners b in
  [(lat sw, lng sw); (lat se, lng se); (lat ne, lng ne); (lat nw, lng nw); (lat sw, lng sw)].

(** [calculateMetrics] (lines 57-72) *)
Definition calculateMetrics (s : State) : Metrics :=
  let bounds := toBounds (pinA s) (pinB s) in
  let width := rect_width bounds in
  let length := rect_length bounds in
  let baseArea := fmul width length in
  let obstacleArea := fold_left (fun sum obs => fadd sum (obs_area obs)) (obstacles s) 0 in
  let noFlyArea := fold_left (fun sum nfz => fadd sum (nfz_area nfz)) (noFlyZones s) 0 in
  let netArea := Qmax (fsub (fsub baseArea obstacleArea) noFlyArea) 0 in
  {| width := width; length := length; baseArea := baseArea; netArea := netArea |}.

(** [latLngToMeters] (lines 78-89) *)
Definition latLngToMeters (latLng origin : LatLng) : Point :=
  let R := 6371000 in
  let lat1 := fdiv (fmul (lat origin) PI) 180 in
  let lat2 := fdiv (fmul (lat latLng) PI) 180 in
  let deltaLng := fdiv (fmul (fsub (lng latLng) (lng origin)) PI) 180 in
  let deltaLat := fdiv (fmul (fsub (lat latLng) (lat origin)) PI) 180 in
  let x := fmul (fmul R deltaLng) (fcos (fdiv (fadd lat1 lat2) 2)) in
  let y := fmul R deltaLat in
  (toFixed 2%nat x, toFixed 2%nat y).

Definition toLatLng (p : Point) : LatLng := {| lat := fst p; lng := snd p |}.

(** [nfz.reason || "Safety restriction"] *)
Definition reason_or_default (r : option string) : string :=
  match r with
  | Some r => if String.eqb r "" then "Safety restriction" else r
  | None => "Safety restriction"
  end.

(** [exportJSON] (lines 91-131), up to the object handed to
    [JSON.stringify]; [timestamp] is the compacted ISO time of the call. *)
Definition exportJSON (timestamp : string) (s : State) : FieldMap :=
  let bounds := toBounds (pinA s) (pinB s) in
  let '(sw, se, ne, nw) := corners bounds in
  let origin := sw in
  let boundary :=
    [(0, 0); latLngToMeters se origin; latLngToMeters ne origin;
     latLngToMeters nw origin; (0, 0)] in
  let obstaclesData :=
    map (fun obs =>
           {| type := "obstacle";
              boundary := map (fun latLng => latLngToMeters (toLatLng latLng) origin)
                              (obs_boundary obs);
              reason := None |}) (obstacles s) in
  let noFlyZonesData :=
    map (fun nfz =>
           {| type := "no_fly_zone";
              boundary := map (fun latLng => latLngToMeters (toLatLng latLng) origin)
                              (nfz_boundary nfz);
              reason := Some (reason_or_default (nfz_reason nfz)) |}) (noFlyZones s) in
  {| field_id := "farm_" +:+ timestamp;
     name := "Farm Field from Phase 1 Mapping";
     fm_boundary := boundary;
     fm_obstacles := obstaclesData;
     fm_no_fly_zones := noFlyZonesData;
     reference_point := (toFixed 6%nat (lat origin), toFixed 6%nat (lng origin)) |}.

(** The map click handler (lines 147-232). *)
Definition click (latlng : LatLng) (uuid : string) (s : State) : State :=
  match mode s with
  | base =>
      match nextPin s with
      | a => set_nextPin b (set_pinA latlng s)
      | b => set_nextPin a (set_pinB latlng s)
      end
  | obstacle =>
      let bounds := toBounds (pinA s) (pinB s) in
      if negb (contains bounds latlng) then s else
      match obstacleStart s with
      | None => set_obstacleStart (Some latlng) s
      | Some start =>
          let obsBounds := toBounds start latlng in
          let area := rect_area obsBounds in
          let s := if gt area 1
                   then set_obstacles
                          (obstacles s ++ [{| obs_id := uuid; obs_boundary := ring obsBounds;
                                              obs_area := area |}]) s
                   else s in
          set_obstacleStart None s
      end
  | nofly =>
      let bounds := toBounds (pinA s) (pinB s) in
      if negb (contains bounds latlng) then s else
      match noFlyStart s with
      | None => set_noFlyStart (Some latlng) s
      | Some start =>
          let nfzBounds := toBounds start latlng in
          let area := rect_area nfzBounds in
          let s := if gt area 1
                   then set_noFlyZones
                          (noFlyZones s ++ [{| nfz_id := uuid; nfz_boundary := ring nfzBounds;
                                               nfz_area := area;
                                               nfz_reason := Some "Safety restriction" |}]) s
                   else s in
          set_noFlyStart None s
      end
  end.

Definition is_base (m : Mode) : bool :=
  match m with base => true | _ => false end.

(** One event.  The pins can be dragged, the boundary locked and the pins
    reset only while the page is in base mode; the region buttons, the
    export and the restart are only rendered in the other two modes. *)
Definition step (s : State) (ev : Event) : State :=
  match ev with
  | MapClick latlng uuid => click latlng uuid s
  | DragEndA latlng => if is_base (mode s) then set_pinA latlng s else s
  | DragEndB latlng => if is_base (mode s) then set_pinB latlng s else s
  | ClickLockBoundary => if is_base (mode s) then set_mode obstacle s else s
  | ClickReset =>
      if is_base (mode s)
      then set_nextPin a (set_pinB defaultPinB (set_pinA defaultPinA s))
      else s
  | ClickObstacles => if is_base (mode s) then s else set_mode obstacle s
  | ClickNoFly => if is_base (mode s) then s else set_mode nofly s
  | ClickExport => s
  | ClickRestartMapping =>
      if is_base (mode s) then s
      else set_noFlyStart None
             (set_obstacleStart None (set_noFlyZones [] (set_obstacles [] (set_mode base s))))
  | ClickRemoveObstacle id =>
      set_obstacles (List.filter (fun o => negb (String.eqb (obs_id o) id)) (obstacles s)) s
  | ClickRemoveNoFly id =>
      set_noFlyZones (List.filter (fun z => negb (String.eqb (nfz_id z) id)) (noFlyZones s)) s
  end.

Definition run (s : State) (trace : list Event) : State := fold_left step trace s.

(** *** Reference descriptions used by the statements below *)

(** A closed polygon: the first point is repeated as the last one. *)
Definition closed_ring (points : list Point) : Prop :=
  ∃ first middle, points = first :: middle ++ [first].

(** Every point of a stored boundary lies in the box. *)
Definition inside (box : LatLngBounds) (points : list Point) : Prop :=
  Forall (fun p => contains box (toLatLng p) = true) points.

Definition field_box (s : State) : LatLngBounds := toBounds (pinA s) (pinB s).

(** The rectangle an accepted click completes: the click lies inside the
    field box and a first corner of the current kind is waiting. *)
Definition candidate (s : State) (latlng : LatLng) : option LatLngBounds :=
  if contains (field_box s) latlng then
    match mode s with
    | base => None
    | obstacle => option_map (fun start => toBounds start latlng) (obstacleStart s)
    | nofly => option_map (fun start => toBounds start latlng) (noFlyStart s)
    end
  else None.

Definition new_obstacle (uuid : string) (box : LatLngBounds) : Obstacle :=
  {| obs_id := uuid; obs_boundary := ring box; obs_area := rect_area box |}.

Definition new_no_fly_zone (uuid : string) (box : LatLngBounds) : NoFlyZone :=
  {| nfz_id := uuid; nfz_boundary := ring box; nfz_area := rect_area box;
     nfz_reason := Some "Safety restriction" |}.

(** Left-to-right sum, as [reduce] computes it. *)
Definition total (areas : list Q) : Q := fold_left fadd areas 0.

(** What holds of the regions in every state the page can reach: in base
    mode nothing is stored; every stored boundary is a closed ring inside
    the field box; a waiting first corner is inside the field box. *)
Definition regions_ok (s : State) : Prop :=
  (mode s = base →
   obstacles s = [] ∧ noFlyZones s = [] ∧ obstacleStart s = None ∧ noFlyStart s = None)
  ∧ Forall (fun o => inside (field_box s) (obs_boundary o) ∧ closed_ring (obs_boundary o))
           (obstacles s)
  ∧ Forall (fun z => inside (field_box s) (nfz_boundary z) ∧ closed_ring (nfz_boundary z))
           (noFlyZones s)
  ∧ (∀ p, obstacleStart s = Some p → contains (field_box s) p = true)
  ∧ (∀ p, noFlyStart s = Some p → contains (field_box s) p = true).

(** The four corners of the field rectangle. *)
Definition south_west (s : State) : LatLng := getSouthWest (field_box s).
Definition north_east (s : State) : LatLng := getNorthEast (field_box s).
Definition south_east (s : State) : LatLng :=
  {| lat := lat (south_west s); lng := lng (north_east s) |}.
Definition north_west (s : State) : LatLng :=
  {| lat := lat (north_east s); lng := lng (south_west s) |}.

(** Degrees to radians. *)
Definition radians (deg : Q) : Q := fdiv (fmul deg PI) 180.

(** Metres east and north of [origin] on a sphere of radius 6371000 m:
    the arc along the parallel at the mean latitude and the arc along the
    meridian, each computed from the difference to [origin] and rounded to
    the centimetre. *)
Definition metres_east (origin p : LatLng) : Q :=
  toFixed 2%nat
    (fmul (fmul 6371000 (radians (fsub (lng p) (lng origin))))
          (fcos (fdiv (fadd (radians (lat origin)) (radians (lat p))) 2))).

Definition metres_north (origin p : LatLng) : Q :=
  toFixed 2%nat (fmul 6371000 (radians (fsub (lat p) (lat origin)))).

Definition metres_from (origin p : LatLng) : Point :=
  (metres_east origin p, metres_north origin p).

(** What rounded double arithmetic guarantees at zero and about signs: a
    number minus itself is zero, zero times a number and zero divided by a
    number other than zero are zero, zero rounds to zero; a difference, a
    product, a quotient and a rounding of numbers that are not negative is
    not negative. *)
Definition arithmetic_laws : Prop :=
  (∀ x, fsub x x == 0)
  ∧ (∀ x y, x == 0 → fmul x y == 0)
  ∧ (∀ x y, y == 0 → fmul x y == 0)
  ∧ (∀ x y, x == 0 → ¬ y == 0 → fdiv x y == 0)
  ∧ (∀ n x, x == 0 → toFixed n x == 0)
  ∧ (∀ x y, y <= x → 0 <= fsub x y)
  ∧ (∀ x y, 0 <= x → 0 <= y → 0 <= fmul x y)
  ∧ (∀ x y, 0 <= x → 0 < y → 0 <= fdiv x y)
  ∧ (∀ n x, 0 <= x → 0 <= toFixed n x)
  ∧ 0 <= PI.

(** All points of an exported field map. *)
Definition exported_points (m : FieldMap) : list Point :=
  fm_boundary m ++ concat (map boundary (fm_obstacles m ++ fm_no_fly_zones m)).

End Page.

(** An exact interpretation, used to run the page on concrete inputs:
    arithmetic on rationals without rounding, pi as 355/113, the cosine as
    its Taylor polynomial of degree two, decimal rounding half away from
    zero, and distance measured along the two axes at 111195 metres per
    degree. *)
Definition round_half_away (x : Q) : Z :=
  if Qle_bool 0 x then Qfloor (x + (1 # 2)) else (- Qfloor ((- x) + (1 # 2)))%Z.

Definition exact_toFixed (n : nat) (x : Q) : Q :=
  inject_Z (round_half_away (x * inject_Z (10 ^ Z.of_nat n))) / inject_Z (10 ^ Z.of_nat n).

Definition exact_distanceTo (p q : LatLng) : Q :=
  111195 * (Qabs (lat p - lat q) + Qabs (lng p - lng q)).

Definition exact : Float64 :=
  {| fadd := Qplus; fsub := Qminus; fmul := Qmult; fdiv := Qdiv;
     fcos := fun x => 1 - x * x / 2; PI := 355 # 113;
     toFixed := exact_toFixed; distanceTo := exact_distanceTo |}.

(** Samples for the closed examples: the boundary is locked at the default
    pins and a first obstacle corner has been accepted. *)
Definition corner1 : LatLng := {| lat := 36.7370; lng := -119.7840 |}.
Definition corner2 : LatLng := {| lat := 36.7375; lng := -119.7830 |}.
Definition corner_near : LatLng := {| lat := 36.737001; lng := -119.783999 |}.
Definition corner_outside : LatLng := {| lat := 36.7475; lng := -119.7830 |}.

Definition first_corner_placed : list Event := [ClickLockBoundary; MapClick corner1 "id-1"].

Section PageInvariants.
Context `{Float64}.

(** How the click handler builds what it stores: the boundary is the ring
    of a rectangle, the area is that rectangle's and exceeds one square
    metre; a no-fly zone also carries the fixed reason. *)
Definition stored_obstacle_ok (o : Obstacle) : Prop :=
  gt (obs_area o) 1 = true
  ∧ ∃ box, obs_boundary o = ring box ∧ obs_area o = rect_area box.

Definition stored_zone_ok (z : NoFlyZone) : Prop :=
  gt (nfz_area z) 1 = true
  ∧ nfz_reason z = Some "Safety restriction"
  ∧ ∃ box, nfz_boundary z = ring box ∧ nfz_area z = rect_area box.

Definition stored_ok (s : State) : Prop :=
  Forall stored_obstacle_ok (obstacles s) ∧ Forall stored_zone_ok (noFlyZones s).

End PageInvariants.

(** The boundary is locked and a pin is dragged. *)
Definition boundary_locked : list Event := [ClickLockBoundary].

End FarmMapping.

(** * Properties of the mission control page *)

Section MissionControlFacts.
Import Js MissionControl.

(** ** Re-rendering and the fields it leaves alone *)

Lemma rerender_same (s : State) : rerender s s = s.
Proof. unfold rerender. rewrite bool_decide_eq_true_2; reflexivity. Qed.

Lemma rerender_sent (before after : State) : sent (rerender before after) = sent after.
Proof.
  unfold rerender, keyboard_effect, effect_cleanup, clearInterval.
  repeat case_match; reflexivity.
Qed.

Lemma rerender_droneConnected (before after : State) :
  droneConnected (rerender before after) = droneConnected after.
Proof.
  unfold rerender, keyboard_effect, effect_cleanup, clearInterval.
  repeat case_match; reflexivity.
Qed.

Lemma rerender_timeouts (before after : State) :
  timeouts (rerender before after) = timeouts after.
Proof.
  unfold rerender, keyboard_effect, effect_cleanup, clearInterval.
  repeat case_match; reflexivity.
Qed.

(** ** One tick of the manual control timer *)

Lemma send_all_app (l1 l2 : list JSON) (s : State) :
  send_all l2 (send_all l1 s) = send_all (l1 ++ l2) s.
Proof. unfold send_all. now rewrite fold_left_app. Qed.

Lemma when_sendCommand (c : Closure) (w : WebSocket) (h : bool) (action : string)
    (params : list (string * JSON)) (s : State) :
  cap_ws c = Some w →
  when h (sendCommand c action params) s
  = send_all (if h then [JObj (("action", JStr action) :: params)] else []) s.
Proof. intros Hc. unfold when, sendCommand. rewrite Hc. now destruct h. Qed.

Lemma commands_for_unfold (keys : gset string) :
  commands_for keys
  = (if has keys "w" then [JObj [("action", JStr "move_forward"); ("distance", JNum 20)]] else [])
    ++ (if has keys "s" then [JObj [("action", JStr "move_back"); ("distance", JNum 20)]] else [])
    ++ (if has keys "a" then [JObj [("action", JStr "move_left"); ("distance", JNum 20)]] else [])
    ++ (if has keys "d" then [JObj [("action", JStr "move_right"); ("distance", JNum 20)]] else [])
    ++ (if has keys "arrowup" then [JObj [("action", JStr "move_up"); ("distance", JNum 20)]] else [])
    ++ (if has keys "arrowdown" then [JObj [("action", JStr "move_down"); ("distance", JNum 20)]] else [])
    ++ (if has keys "arrowleft" then [JObj [("action", JStr "rotate_ccw"); ("degrees", JNum 15)]] else [])
    ++ (if has keys "arrowright" then [JObj [("action", JStr "rotate_cw"); ("degrees", JNum 15)]] else [])
    ++ (if has keys " " then [JObj [("action", JStr "land")]] else []).
Proof.
  unfold commands_for, key_table. cbn [List.filter map fst snd].
  generalize (has keys "w") (has keys "s") (has keys "a") (has keys "d")
    (has keys "arrowup") (has keys "arrowdown") (has keys "arrowleft")
    (has keys "arrowright") (has keys " ").
  intros h1 h2 h3 h4 h5 h6 h7 h8 h9.
  destruct h1, h2, h3, h4, h5, h6, h7, h8, h9; reflexivity.
Qed.

Lemma sendManualCommands_tick_result (c : Closure) (s : State) :
  sendManualCommands c s = tick_result c s.
Proof.
  unfold sendManualCommands, tick_result.
  destruct (cap_ws c) as [w|] eqn:Hc; [|reflexivity].
  destruct (cap_droneConnected c); cbn [negb]; [|reflexivity].
  rewrite commands_for_unfold.
  rewrite !(when_sendCommand c w) by assumption.
  rewrite !send_all_app, <- ?app_assoc.
  unfold when at 1.
  destruct (has (keysPressed s) " ") eqn:Hsp; [|now rewrite !app_nil_r].
  unfold sendCommand. rewrite Hc.
  change (socket_send ?f ?t) with (send_all [f] t).
  now rewrite send_all_app, <- ?app_assoc.
Qed.

Lemma state_eta (s : State) : set_sent (sent s) s = s.
Proof. now destruct s. Qed.

Lemma send_all_open (frames : list JSON) (s : State) :
  send_all frames s
  = match readyState s with
    | OPEN => set_sent (sent s ++ frames) s
    | _ => s
    end.
Proof.
  unfold send_all. revert s.
  induction frames as [|f frames IH]; intros s; cbn [fold_left].
  - rewrite app_nil_r, state_eta. now destruct (readyState s).
  - rewrite IH. unfold socket_send.
    destruct (readyState s) eqn:Hrs; cbn [readyState set_sent]; rewrite ?Hrs; try reflexivity.
    unfold set_sent; cbn -[app]. now rewrite <- app_assoc.
Qed.

(** Unfolds one step down to record updates. *)
Ltac unfold_handlers :=
  unfold step, handle, onopen, onmessage, onclose, handleKeyDown, handleKeyUp,
    connectDrone, startStream, executeMission, emergencyStop, takeoff, sendCommand,
    setTimeout, setInterval, clearInterval, socket_send;
  repeat case_match;
  rewrite ?sendManualCommands_tick_result;
  unfold tick_result; rewrite ?send_all_open;
  repeat case_match.

(** Reads fields through record updates, and nothing else. *)
Ltac state_simpl :=
  cbn [
    ws connected droneConnected streaming videoFrame telemetry missionStatus
    fieldMap flightPlan altitude overlap manualMode keysPressed controlInterval
    readyState listeners intervals timeouts nextTimer sent set_ws set_connected
    set_droneConnected set_streaming set_videoFrame set_telemetry
    set_missionStatus set_fieldMap set_flightPlan set_altitude set_overlap
    set_manualMode set_keysPressed set_controlInterval set_readyState
    set_listeners set_intervals set_timeouts set_nextTimer set_sent cap_ws
    cap_droneConnected iv_id iv_period_ms iv_callback to_id to_delay_ms
  ] in *.

Lemma run_invariant (P : State → Prop) :
  (∀ s ev, P s → P (step s ev)) → ∀ trace s, P s → P (run s trace).
Proof.
  intros Hstep trace. unfold run.
  induction trace as [|ev trace IH]; intros s Hs; cbn [fold_left]; auto.
Qed.

(** ** The socket before it opens *)

Lemma rerender_readyState (before after : State) :
  readyState (rerender before after) = readyState after.
Proof.
  unfold rerender, keyboard_effect, effect_cleanup, clearInterval.
  repeat case_match; reflexivity.
Qed.

Lemma step_stays_opened (s : State) (ev : Event) :
  readyState s ≠ CONNECTING → readyState (step s ev) ≠ CONNECTING.
Proof.
  intros Hs. unfold step. rewrite rerender_readyState.
  destruct ev; unfold_handlers; state_simpl; congruence.
Qed.

Lemma step_not_opened (s : State) (ev : Event) :
  not_opened_ok s → not_opened_ok (step s ev).
Proof.
  unfold not_opened_ok. intros Hs Hafter.
  destruct (readyState s) eqn:Hrs;
    [|exfalso; revert Hafter; apply step_stays_opened; congruence..].
  destruct (Hs eq_refl) as (Hws & Hcon & Hdc & Hmm & Hto & Hl & Hi).
  assert (handle ev s = s
          ∨ (∃ v, handle ev s = set_fieldMap v s) ∨ (∃ v, handle ev s = set_flightPlan v s)
          ∨ (∃ v, handle ev s = set_altitude v s) ∨ (∃ v, handle ev s = set_overlap v s))
    as Hcases.
  { destruct ev; cbn [handle];
      rewrite ?Hrs, ?Hcon, ?Hdc, ?Hl; cbn [andb negb]; eauto 6.
    - revert Hafter. unfold step. rewrite rerender_readyState. cbn [handle]. rewrite Hrs.
      unfold onopen. state_simpl. discriminate.
    - revert Hafter. unfold step. rewrite rerender_readyState. cbn [handle]. rewrite Hrs.
      unfold onclose. state_simpl. discriminate.
    - unfold find_interval. rewrite Hi. cbn. auto.
    - unfold is_pending. rewrite Hto. cbn. auto.
    - destruct parsed; eauto 6.
    - unfold emergencyStop. rewrite Hws. auto. }
  unfold step.
  destruct Hcases as [-> | [[v ->] | [[v ->] | [[v ->] | [v ->]]]]];
    unfold rerender; rewrite bool_decide_eq_true_2 by reflexivity; state_simpl;
    now repeat split.
Qed.

Lemma reachable_not_opened (trace : list Event) : not_opened_ok (run init trace).
Proof.
  apply run_invariant; [apply step_not_opened|].
  intros _. now repeat split.
Qed.

(** ** Connecting the drone *)

Lemma step_droneConnected (s : State) (ev : Event) :
  droneConnected (step s ev) = droneConnected s || fires_pending ev s.
Proof.
  unfold step. rewrite rerender_droneConnected.
  destruct ev; unfold fires_pending; unfold_handlers;
    state_simpl; rewrite ?orb_false_r, ?orb_true_r; congruence.
Qed.

Lemma step_timeouts_delay (s : State) (ev : Event) :
  Forall (fun t => to_delay_ms t = 2000%Z) (timeouts s) →
  Forall (fun t => to_delay_ms t = 2000%Z) (timeouts (step s ev)).
Proof.
  intros Hs. unfold step. rewrite rerender_timeouts.
  destruct ev; unfold_handlers; state_simpl; try exact Hs.
  all: try solve [apply Forall_app; split; [exact Hs|repeat constructor]].
  all: apply List.Forall_forall; intros t Ht; apply List.filter_In in Ht as [Ht _].
  all: revert t Ht; now apply List.Forall_forall.
Qed.

(** C1, as amended.  The drone-connected flag becomes true exactly when a
    pending timer fires, and stays true afterwards: no message received on
    the channel changes it.  The only timers ever pending are the 2000 ms
    timers [connectDrone] starts right after handing the connect request to
    the socket, one per click on the enabled button. *)
Theorem drone_connected_by_timer_only (s : State) (ev : Event) (trace : list Event) :
  droneConnected (step s ev) = droneConnected s || fires_pending ev s
  ∧ timeouts (step s ClickConnectDrone)
    = (if connected s && negb (droneConnected s) && bool_decide (is_Some (ws s))
       then timeouts s ++ [{| to_id := nextTimer s; to_delay_ms := 2000 |}]
       else timeouts s)
  ∧ sent (step s ClickConnectDrone)
    = (if connected s && negb (droneConnected s) && bool_decide (is_Some (ws s))
       then sent (socket_send (JObj [("action", JStr "connect")]) s)
       else sent s)
  ∧ Forall (fun t => to_delay_ms t = 2000%Z) (timeouts (run init trace)).
Proof.
  split; [apply step_droneConnected|].
  assert (∀ w : WebSocket, bool_decide (is_Some (Some w)) = true) as Hsome
    by (intros w; apply bool_decide_eq_true_2; eauto).
  assert (bool_decide (is_Some (@None WebSocket)) = false) as Hnone
    by (apply bool_decide_eq_false_2; intros [? ?]; discriminate).
  split; [|split].
  - unfold step. rewrite rerender_timeouts. cbn [handle].
    unfold connectDrone, setTimeout, socket_send.
    destruct (connected s), (droneConnected s), (ws s), (readyState s);
      rewrite ?Hsome, ?Hnone; reflexivity.
  - unfold step. rewrite rerender_sent. cbn [handle].
    unfold connectDrone, setTimeout, socket_send.
    destruct (connected s), (droneConnected s), (ws s), (readyState s);
      rewrite ?Hsome, ?Hnone; reflexivity.
  - apply run_invariant; [apply step_timeouts_delay|]. constructor.
Qed.

(** C1 fails as stated: the operator opens the page and clicks Connect
    Drone; two seconds later the flag is true although no message was ever
    received.  Conversely, when an acknowledgment does arrive before the
    timer fires, the flag is still false. *)
Lemma connected_without_handshake :
  droneConnected (run init [WsOpen; ClickConnectDrone; TimeoutFire 1]) = true
  ∧ sent (run init [WsOpen; ClickConnectDrone; TimeoutFire 1])
    = [JObj [("action", JStr "connect")]]
  ∧ droneConnected (run init [WsOpen; ClickConnectDrone; WsMessage (Some sample_ack)]) = false.
Proof. vm_compute. auto. Qed.

(** ** Frames of a mission upload *)







(** When the flight-path service answered with its error body, START
    MISSION is enabled all the same and the frame sent carries no
    waypoints. *)
Example mission_from_error_body :
  sent (run init [WsOpen; ClickConnectDrone; TimeoutFire 1;
                  FlightPathResponse sample_error; ClickExecuteMission 1700000000000])
  = [JObj [("action", JStr "connect")];
     JObj [("action", JStr "execute_mission");
           ("mission_data",
            JObj [("mission_id", JStr "mission_1700000000000");
                  ("altitude", JNum 200)])]].
Proof. vm_compute. reflexivity. Qed.

(** ** The manual control timer *)

Lemma handle_listeners (s : State) (ev : Event) : listeners (handle ev s) = listeners s.
Proof. destruct ev; unfold_handlers; state_simpl; congruence. Qed.

Lemma filter_own_id (iv : Interval) :
  List.filter (fun iv' => negb (iv_id iv' =? iv_id iv)%nat) [iv] = [].
Proof. cbn. now rewrite Nat.eqb_refl. Qed.

(** Apart from the two key handlers, no handler touches the timer
    bookkeeping; the timer counter never decreases. *)
Lemma handle_timer_frame (s : State) (ev : Event) :
  is_key_event ev = false →
  intervals (handle ev s) = intervals s
  ∧ controlInterval (handle ev s) = controlInterval s
  ∧ (nextTimer s ≤ nextTimer (handle ev s))%nat.
Proof.
  destruct ev; try discriminate; intros _; unfold_handlers; state_simpl;
    repeat split; auto with arith.
Qed.

Lemma handle_interval_ok (s : State) (ev : Event) :
  interval_ok s → interval_ok (handle ev s).
Proof.
  intros Hs.
  destruct (is_key_event ev) eqn:Hk.
  - destruct ev; try discriminate; clear Hk; cbn [handle].
    + (* key down *)
      destruct (listeners s) as [c|] eqn:Hl; [|exact Hs].
      unfold handleKeyDown, setInterval, interval_ok in *. state_simpl.
      destruct (controlInterval s) as [id|] eqn:Hc; state_simpl; [now rewrite Hc|].
      destruct (intervals s) as [|iv [|iv' rest]]; cbn [app].
      * rewrite Hl. repeat split; eauto.
      * destruct Hs as [Habs _]. discriminate Habs.
      * contradiction.
    + (* key up *)
      destruct (listeners s) as [c|] eqn:Hl; [|exact Hs].
      unfold handleKeyUp, clearInterval, interval_ok in *. state_simpl.
      destruct (bool_decide _); [|exact Hs].
      destruct (controlInterval s) as [id|] eqn:Hc; state_simpl; [|now rewrite Hc].
      destruct (intervals s) as [|iv [|iv' rest]]; [exact I| |contradiction].
      destruct Hs as [Heq _]. injection Heq as ->. now rewrite filter_own_id.
  - destruct (handle_timer_frame s ev Hk) as (Hi & Hc & Hn).
    pose proof (handle_listeners s ev) as Hl.
    unfold interval_ok in *. rewrite Hi, Hc, Hl.
    destruct (intervals s) as [|iv [|iv' rest]]; auto.
    destruct Hs as (? & ? & ? & ?). repeat split; auto. lia.
Qed.

Lemma keyboard_effect_intervals (s : State) : intervals (keyboard_effect s) = intervals s.
Proof. unfold keyboard_effect. now destruct (_ || _). Qed.

(** A cleanup that runs leaves no interval behind; when no cleanup is due,
    none was live. *)
Lemma cleanup_intervals (s : State) :
  interval_ok s →
  intervals (match listeners s with Some _ => effect_cleanup s | None => s end) = [].
Proof.
  unfold interval_ok, effect_cleanup, clearInterval. intros Hs.
  destruct (intervals s) as [|iv [|iv' rest]] eqn:Hiv; [| |contradiction].
  - destruct (listeners s); [|exact Hiv].
    state_simpl. destruct (controlInterval s); state_simpl; now rewrite Hiv.
  - destruct Hs as (Hc & [c Hl] & _). rewrite Hl. state_simpl.
    rewrite Hc. state_simpl. now rewrite Hiv, filter_own_id.
Qed.

Lemma rerender_changed_intervals (before after : State) :
  interval_ok after →
  (manualMode before, droneConnected before) ≠ (manualMode after, droneConnected after) →
  intervals (rerender before after) = [].
Proof.
  intros Ha Hne. unfold rerender. rewrite bool_decide_eq_false_2 by exact Hne.
  rewrite keyboard_effect_intervals. now apply cleanup_intervals.
Qed.

Lemma rerender_interval_ok (before after : State) :
  interval_ok after → interval_ok (rerender before after).
Proof.
  intros Ha.
  destruct (decide ((manualMode before, droneConnected before)
                    = (manualMode after, droneConnected after))) as [Heq|Hne].
  - unfold rerender. now rewrite bool_decide_eq_true_2.
  - unfold interval_ok. now rewrite rerender_changed_intervals.
Qed.

Lemma cleanup_listeners (s : State) :
  listeners (match listeners s with Some _ => effect_cleanup s | None => s end) = None
  ∧ manualMode (match listeners s with Some _ => effect_cleanup s | None => s end)
    = manualMode s.
Proof.
  unfold effect_cleanup, clearInterval.
  destruct (listeners s) eqn:Hl; [|now split].
  state_simpl. destruct (controlInterval s); now split.
Qed.

Lemma rerender_listeners_manual (before after : State) :
  listeners after = listeners before →
  (is_Some (listeners before) → manualMode before = true) →
  is_Some (listeners (rerender before after)) → manualMode (rerender before after) = true.
Proof.
  unfold rerender. intros Hl Hb.
  destruct (bool_decide _) eqn:Hd.
  - apply bool_decide_eq_true_1 in Hd. injection Hd as Hm _.
    rewrite Hl, <- Hm. exact Hb.
  - destruct (cleanup_listeners after) as [Hnone Hmm].
    revert Hnone Hmm.
    generalize (match listeners after with Some _ => effect_cleanup after | None => after end).
    intros x Hnone Hmm. unfold keyboard_effect.
    destruct (manualMode x) eqn:Hx; cbn [negb orb].
    + destruct (negb (droneConnected x)); state_simpl; auto.
    + rewrite Hnone. intros [c Hc]. discriminate Hc.
Qed.

Lemma step_timers_ok (s : State) (ev : Event) : timers_ok s → timers_ok (step s ev).
Proof.
  intros [Hi Hl]. split.
  - apply rerender_interval_ok, handle_interval_ok, Hi.
  - apply rerender_listeners_manual; [apply handle_listeners | exact Hl].
Qed.

Lemma init_timers_ok : timers_ok init.
Proof. split; [exact I|]. intros [c Hc]. discriminate Hc. Qed.

Lemma reachable_timers_ok (trace : list Event) : timers_ok (run init trace).
Proof. apply run_invariant; [apply step_timers_ok | apply init_timers_ok]. Qed.


Lemma step_tick_sent (s : State) (id : nat) :
  sent (step s (IntervalTick id)) = sent s ++ tick_frames id s.
Proof.
  unfold step. rewrite rerender_sent. cbn [handle]. unfold tick_frames, can_send.
  destruct (find_interval id s) as [iv|]; [|now rewrite app_nil_r].
  rewrite sendManualCommands_tick_result. unfold tick_result.
  destruct (cap_ws (iv_callback iv)) as [w|]; [|now rewrite app_nil_r].
  rewrite bool_decide_eq_true_2 by eauto.
  destruct (cap_droneConnected (iv_callback iv)); cbn [negb andb]; [|now rewrite app_nil_r].
  rewrite send_all_open.
  destruct (readyState s), (has (keysPressed s) " "); state_simpl;
    rewrite ?app_nil_r; reflexivity.
Qed.





(** ** Cancelling the manual control timer *)

Lemma find_interval_none (id n : nat) (s : State) :
  Forall (fun iv => (n ≤ iv_id iv)%nat) (intervals s) → (id < n)%nat →
  find_interval id s = None.
Proof.
  unfold find_interval. intros Hall Hlt.
  induction Hall as [|iv rest Hiv _ IH]; [reflexivity|].
  cbn [List.find]. destruct (Nat.eqb_spec (iv_id iv) id); [lia|exact IH].
Qed.

Lemma find_interval_live (id : nat) (s : State) :
  interval_ok s → is_Some (find_interval id s) → (id < nextTimer s)%nat.
Proof.
  unfold interval_ok, find_interval. intros Hs [iv Hf].
  destruct (intervals s) as [|iv0 [|iv' rest]]; [discriminate| |contradiction].
  cbn [List.find] in Hf. destruct (Nat.eqb_spec (iv_id iv0) id); [|discriminate].
  destruct Hs as (_ & _ & Hlt & _). lia.
Qed.

Lemma rerender_nextTimer (before after : State) :
  nextTimer (rerender before after) = nextTimer after.
Proof.
  unfold rerender, keyboard_effect, effect_cleanup, clearInterval.
  repeat case_match; reflexivity.
Qed.

Lemma rerender_intervals_Forall (P : Interval → Prop) (before after : State) :
  Forall P (intervals after) → Forall P (intervals (rerender before after)).
Proof.
  intros Ha. unfold rerender. destruct (bool_decide _); [exact Ha|].
  rewrite keyboard_effect_intervals. unfold effect_cleanup, clearInterval.
  destruct (listeners after); [|exact Ha]. state_simpl.
  destruct (controlInterval after); state_simpl; [|exact Ha].
  apply List.Forall_forall. intros iv Hin. apply List.filter_In in Hin as [Hin _].
  revert iv Hin. now apply List.Forall_forall.
Qed.

Lemma step_nextTimer_mono (s : State) (ev : Event) :
  (nextTimer s ≤ nextTimer (step s ev))%nat.
Proof.
  unfold step. rewrite rerender_nextTimer.
  destruct (is_key_event ev) eqn:Hk.
  - destruct ev; try discriminate; unfold_handlers; state_simpl; lia.
  - now destruct (handle_timer_frame s ev Hk) as (_ & _ & Hle).
Qed.

Lemma step_timers_from (n : nat) (s : State) (ev : Event) :
  timers_from n s → timers_from n (step s ev).
Proof.
  unfold timers_from. intros [Hn Hall]. split.
  - pose proof (step_nextTimer_mono s ev). lia.
  - unfold step. apply rerender_intervals_Forall.
    destruct (is_key_event ev) eqn:Hk.
    + destruct ev; try discriminate; unfold_handlers; state_simpl; auto.
      * apply Forall_app. split; [exact Hall|]. repeat constructor. exact Hn.
      * apply List.Forall_forall. intros iv Hin. apply List.filter_In in Hin as [Hin _].
        revert iv Hin. now apply List.Forall_forall.
    + destruct (handle_timer_frame s ev Hk) as (Hi & _ & _). now rewrite Hi.
Qed.

(** A timer id below every live id names no live timer: its tick runs
    nothing. *)
Lemma dead_tick (n id : nat) (s : State) :
  timers_from n s → (id < n)%nat → step s (IntervalTick id) = s.
Proof.
  intros [_ Hall] Hlt. unfold step. cbn [handle].
  rewrite (find_interval_none id n s Hall Hlt). apply rerender_same.
Qed.

Lemma interval_ok_no_listeners (s : State) :
  interval_ok s → listeners s = None → intervals s = [].
Proof.
  unfold interval_ok. intros Hs Hl.
  destruct (intervals s) as [|iv [|iv' rest]]; [reflexivity| |contradiction].
  destruct Hs as (_ & [c Hc] & _). congruence.
Qed.

(** Releasing the last held key stops the timer. *)
Lemma keyup_cancels (s : State) (key : string) :
  timers_ok s → keysPressed (step s (KeyUp key)) = ∅ → intervals (step s (KeyUp key)) = [].
Proof.
  intros [Hi _].
  assert (step s (KeyUp key) = handle (KeyUp key) s) as ->.
  { unfold step, rerender. rewrite bool_decide_eq_true_2; [reflexivity|].
    cbn [handle]. destruct (listeners s); [|reflexivity].
    unfold handleKeyUp, clearInterval. repeat case_match; reflexivity. }
  cbn [handle].
  destruct (listeners s) as [c|] eqn:Hl; [|intros _; now apply interval_ok_no_listeners].
  unfold handleKeyUp, clearInterval. state_simpl.
  destruct (bool_decide (size (keysPressed s ∖ {[key]}) = 0%nat)) eqn:Hsz.
  - intros _. unfold interval_ok in Hi.
    destruct (controlInterval s) as [id|] eqn:Hc; state_simpl.
    + destruct (intervals s) as [|iv [|iv' rest]]; [reflexivity| |contradiction].
      destruct Hi as [Heq _]. injection Heq as ->. apply filter_own_id.
    + destruct (intervals s) as [|iv [|iv' rest]]; [reflexivity| |contradiction].
      destruct Hi as [Heq _]. discriminate Heq.
  - state_simpl. intros Hempty. apply bool_decide_eq_false_1 in Hsz.
    rewrite Hempty in Hsz. now rewrite size_empty in Hsz.
Qed.

(** An emergency stop that goes out on the socket stops the timer. *)
Lemma emergency_stop_cancels (s : State) :
  timers_ok s →
  sent (step s ClickEmergencyStop) = sent s ++ [emergency_frame] →
  intervals (step s ClickEmergencyStop) = [].
Proof.
  intros [Hi Hl]. unfold step. rewrite rerender_sent.
  pose proof (handle_interval_ok s ClickEmergencyStop Hi) as Hh.
  revert Hh. cbn [handle]. unfold emergencyStop.
  destruct (ws s) as [w|].
  - intros Hh _. destruct (manualMode s) eqn:Hm.
    + apply rerender_changed_intervals; [exact Hh|].
      state_simpl. rewrite Hm. congruence.
    + assert (listeners s = None) as Hnone.
      { destruct (listeners s) eqn:Hls; [|reflexivity].
        assert (false = true) by (apply Hl; eauto). discriminate. }
      unfold rerender. rewrite bool_decide_eq_true_2.
      * unfold socket_send. destruct (readyState s); state_simpl;
          now apply interval_ok_no_listeners.
      * unfold socket_send. destruct (readyState s); state_simpl; now rewrite Hm.
  - intros _ Habs. rewrite <- (app_nil_r (sent s)) in Habs at 1.
    apply app_inv_head in Habs. discriminate Habs.
Qed.

(** An emergency stop pressed while the page holds the socket stops the
    timer, whether or not the frame still reaches the server. *)
Lemma emergency_stop_clears (s : State) :
  timers_ok s → is_Some (ws s) → intervals (step s ClickEmergencyStop) = [].
Proof.
  intros [Hi Hl] [w Hw]. unfold step.
  pose proof (handle_interval_ok s ClickEmergencyStop Hi) as Hh.
  revert Hh. cbn [handle]. unfold emergencyStop. rewrite Hw.
  intros Hh. destruct (manualMode s) eqn:Hm.
  - apply rerender_changed_intervals; [exact Hh|].
    state_simpl. rewrite Hm. congruence.
  - assert (listeners s = None) as Hnone.
    { destruct (listeners s) eqn:Hls; [|reflexivity].
      assert (false = true) by (apply Hl; eauto). discriminate. }
    unfold rerender. rewrite bool_decide_eq_true_2.
    + unfold socket_send. destruct (readyState s); state_simpl;
        now apply interval_ok_no_listeners.
    + unfold socket_send. destruct (readyState s); state_simpl; now rewrite Hm.
Qed.

(** Without the socket the emergency stop returns at its guard. *)
Lemma emergency_stop_guard (s : State) :
  ws s = None → step s ClickEmergencyStop = s.
Proof.
  intros Hws. unfold step. cbn [handle]. unfold emergencyStop. rewrite Hws.
  apply rerender_same.
Qed.

(** C4, as amended.  In every reachable state in which the sampling timer
    [id] is live: after a key-up event that leaves the page's own record
    of held keys empty, or after an emergency stop pressed while the page
    holds the socket, no interval timer is live any more, and in every
    later state a tick of timer [id] runs nothing, hence sends nothing.
    An emergency stop pressed while the page holds no socket returns at
    the guard of [emergencyStop] and changes nothing. *)
Theorem manual_sampling_cancelled (trace future : list Event) (ev : Event) (id : nat) :
  is_Some (find_interval id (run init trace)) →
  ((∃ key, ev = KeyUp key) ∧ keysPressed (step (run init trace) ev) = ∅)
  ∨ (ev = ClickEmergencyStop ∧ is_Some (ws (run init trace))) →
  intervals (step (run init trace) ev) = []
  ∧ step (run (step (run init trace) ev) future) (IntervalTick id)
    = run (step (run init trace) ev) future
  ∧ ∀ s, ws s = None → step s ClickEmergencyStop = s.
Proof.
  intros Hlive Hcancel.
  pose proof (reachable_timers_ok trace) as Hok.
  set (s := run init trace) in *.
  assert (intervals (step s ev) = []) as Hnone.
  { destruct Hcancel as [[[key ->] Hempty] | [-> Hws]].
    - now apply keyup_cancels.
    - now apply emergency_stop_clears. }
  split; [exact Hnone|]. split; [|exact emergency_stop_guard].
  apply (dead_tick (nextTimer s)).
  - apply (run_invariant (timers_from (nextTimer s))); [apply step_timers_from|].
    split; [apply step_nextTimer_mono|]. rewrite Hnone. constructor.
  - apply find_interval_live; [apply Hok | exact Hlive].
Qed.

(** The hypotheses of C4 hold in a manual session with W held, both when
    the operator releases W, the last held key, and when the operator
    presses the emergency stop instead. *)
Lemma manual_sampling_cancelled_witness :
  (intervals (step (run init (manual_session ++ [KeyDown "w"])) (KeyUp "w")) = []
   ∧ step (run (step (run init (manual_session ++ [KeyDown "w"])) (KeyUp "w"))
               [KeyDown "a"; KeyUp "a"]) (IntervalTick 2)
     = run (step (run init (manual_session ++ [KeyDown "w"])) (KeyUp "w"))
           [KeyDown "a"; KeyUp "a"])
  ∧ (intervals (step (run init (manual_session ++ [KeyDown "w"])) ClickEmergencyStop) = []
     ∧ step (run (step (run init (manual_session ++ [KeyDown "w"])) ClickEmergencyStop)
                 [ClickManualMode; KeyUp "w"; KeyDown "a"]) (IntervalTick 2)
       = run (step (run init (manual_session ++ [KeyDown "w"])) ClickEmergencyStop)
             [ClickManualMode; KeyUp "w"; KeyDown "a"]).
Proof.
  split.
  - assert (is_Some (find_interval 2 (run init (manual_session ++ [KeyDown "w"]))))
      as Hlive by (vm_compute; eauto).
    assert (keysPressed (step (run init (manual_session ++ [KeyDown "w"])) (KeyUp "w")) = ∅)
      as Hempty by (vm_compute; reflexivity).
    destruct (manual_sampling_cancelled (manual_session ++ [KeyDown "w"])
                [KeyDown "a"; KeyUp "a"] (KeyUp "w") 2 Hlive
                (or_introl (conj (ex_intro _ "w" eq_refl) Hempty)))
      as (Hnone & Hdead & _).
    exact (conj Hnone Hdead).
  - assert (is_Some (find_interval 2 (run init (manual_session ++ [KeyDown "w"]))))
      as Hlive by (vm_compute; eauto).
    assert (is_Some (ws (run init (manual_session ++ [KeyDown "w"]))))
      as Hws by (vm_compute; eauto).
    destruct (manual_sampling_cancelled (manual_session ++ [KeyDown "w"])
                [ClickManualMode; KeyUp "w"; KeyDown "a"] ClickEmergencyStop 2 Hlive
                (or_intror (conj eq_refl Hws)))
      as (Hnone & Hdead & _).
    exact (conj Hnone Hdead).
Defined.

(** C4 fails as stated: with W held in manual mode and the link to the
    drone server lost, the page holds no socket, so the emergency stop
    returns at its guard: manual mode stays on and timer 2 stays live,
    still sampling the keys every 200 ms. *)
Lemma emergency_stop_ignored_without_socket :
  ws (run init (manual_session ++ [KeyDown "w"; WsClose])) = None
  ∧ run init (manual_session ++ [KeyDown "w"; WsClose; ClickEmergencyStop])
    = run init (manual_session ++ [KeyDown "w"; WsClose])
  ∧ manualMode (run init (manual_session ++ [KeyDown "w"; WsClose; ClickEmergencyStop]))
    = true
  ∧ intervals (run init (manual_session ++ [KeyDown "w"; WsClose; ClickEmergencyStop]))
    = [{| iv_id := 2; iv_period_ms := 200;
          iv_callback := {| cap_ws := Some DroneServerSocket;
                            cap_droneConnected := true |} |}]
  ∧ keysPressed (run init (manual_session ++ [KeyDown "w"; WsClose; ClickEmergencyStop]))
    = {[ "w" ]}.
Proof. vm_compute. repeat split; reflexivity. Qed.

(** The page knows a key by the name its events report.  When the release
    of W is reported under another name (here with the Option key held,
    which turns the key into a symbol), W stays recorded as held after all
    keys are up, and every later tick sends [move_forward]. *)
Example release_reported_under_another_name :
  intervals (run init (manual_session
                       ++ [KeyDown "w"; KeyDown "alt"; KeyUp "∑"; KeyUp "alt"])) ≠ []
  ∧ sent (run init (manual_session
                    ++ [KeyDown "w"; KeyDown "alt"; KeyUp "∑"; KeyUp "alt";
                        IntervalTick 2; IntervalTick 2]))
    = [JObj [("action", JStr "connect")];
       JObj [("action", JStr "move_forward"); ("distance", JNum 20)];
       JObj [("action", JStr "move_forward"); ("distance", JNum 20)]].
Proof. vm_compute. split; [discriminate|reflexivity]. Qed.

(** The emergency stop cancels a running timer in the same way. *)
Example emergency_stop_example :
  intervals (run init (manual_session ++ [KeyDown "w"])) ≠ []
  ∧ intervals (run init (manual_session ++ [KeyDown "w"; ClickEmergencyStop])) = []
  ∧ sent (run init (manual_session ++ [KeyDown "w"; IntervalTick 2; ClickEmergencyStop;
                                       IntervalTick 2]))
    = [JObj [("action", JStr "connect")];
       JObj [("action", JStr "move_forward"); ("distance", JNum 20)];
       emergency_frame].
Proof. vm_compute. repeat split; auto. discriminate. Qed.

(** ** Inbound messages and the battery warning *)

(** C7.  A message that [JSON.parse] rejects changes nothing: telemetry,
    video frame and mission status keep their values, the socket stays
    open and the page state is the state before the message. *)
Theorem malformed_message_dropped (s : State) :
  step s (WsMessage None) = s
  ∧ telemetry (step s (WsMessage None)) = telemetry s
  ∧ videoFrame (step s (WsMessage None)) = videoFrame s
  ∧ missionStatus (step s (WsMessage None)) = missionStatus s
  ∧ readyState (step s (WsMessage None)) = readyState s.
Proof.
  assert (step s (WsMessage None) = s) as ->; [|now repeat split].
  unfold step. cbn [handle onmessage]. destruct (readyState s); apply rerender_same.
Qed.

Lemma gt_spec (x y : Q) : MissionControl.gt x y = true ↔ (y < x)%Q.
Proof.
  unfold MissionControl.gt. rewrite negb_true_iff, <- not_true_iff_false, Qle_bool_iff.
  split; [apply Qnot_le_lt | apply Qlt_not_le].
Qed.

(** The body the hook holds after a response of the flight-path service. *)
Lemma step_flightPlan (s : State) (body : JSON) :
  flightPlan (step s (FlightPathResponse body)) = body.
Proof.
  unfold step, rerender, keyboard_effect, effect_cleanup, clearInterval. cbn [handle].
  repeat case_match; reflexivity.
Qed.

(** C6.  Once a generated plan has been received, the card shows the
    infeasible-mission warning exactly when the plan's estimated battery
    use exceeds 100 percent; at or below 100 it shows at most the
    high-usage notice.  A generated plan is any response body whose
    [estimated_battery_pct] is a number. *)
Theorem infeasible_warning_iff_over_100 (s : State) (body : JSON) (pct : Q) :
  get "estimated_battery_pct" body = Some (JNum pct) →
  (render_battery_alert (step s (FlightPathResponse body)) = Some (Some MissionImpossible)
   ↔ (100 < pct)%Q)
  ∧ (render_battery_alert (step s (FlightPathResponse body)) = Some (Some HighBatteryUsage)
     ↔ (80 < pct)%Q ∧ (pct <= 100)%Q)
  ∧ (render_battery_alert (step s (FlightPathResponse body)) = Some None
     ↔ (pct <= 80)%Q).
Proof.
  intros Hpct.
  assert (truthy body = true) as Hbody by (destruct body; try discriminate Hpct; reflexivity).
  unfold render_battery_alert. rewrite step_flightPlan, Hbody.
  unfold battery_alert. rewrite Hpct. cbn [js_gt].
  destruct (MissionControl.gt pct 100) eqn:H100.
  - apply gt_spec in H100.
    assert (¬ (pct <= 100)%Q) as Hn by now apply Qlt_not_le.
    assert (¬ (pct <= 80)%Q) as Hn80.
    { intros Hle. apply Hn. apply Qle_trans with 80%Q; [exact Hle|discriminate]. }
    repeat split; try discriminate; try tauto.
  - assert (¬ (100 < pct)%Q) as Hn.
    { intros Hlt. apply gt_spec in Hlt. congruence. }
    destruct (MissionControl.gt pct 80) eqn:H80.
    + apply gt_spec in H80.
      assert (¬ (pct <= 80)%Q) as Hn80 by now apply Qlt_not_le.
      repeat split; try discriminate; try tauto.
      now apply Qnot_lt_le.
    + assert (¬ (80 < pct)%Q) as Hn80.
      { intros Hlt. apply gt_spec in Hlt. congruence. }
      repeat split; try discriminate; try tauto.
      intros _. now apply Qnot_lt_le.
Qed.

(** The sample plan asks for 135 percent: the warning is shown. *)
Lemma infeasible_warning_iff_over_100_witness :
  get "estimated_battery_pct" sample_plan = Some (JNum 135)
  ∧ render_battery_alert (step init (FlightPathResponse sample_plan))
    = Some (Some MissionImpossible).
Proof.
  split; [reflexivity|].
  apply (proj1 (infeasible_warning_iff_over_100 init sample_plan 135 eq_refl)).
  reflexivity.
Defined.

(** The error body of the service has no percentage: no alert. *)
Example no_alert_for_error_body :
  render_battery_alert (step init (FlightPathResponse sample_error)) = Some None.
Proof. vm_compute. reflexivity. Qed.

End MissionControlFacts.

(** * Properties of the farm mapping page *)

Section FarmMappingFacts.
Import FarmMapping.
Context `{ops : Float64}.
#[local] Open Scope Q_scope.

(** ** Boxes *)

Lemma contains_spec (box : LatLngBounds) (p : LatLng) :
  contains box p = true
  ↔ (lat (southWest box) <= lat p ∧ lat p <= lat (northEast box))
    ∧ (lng (southWest box) <= lng p ∧ lng p <= lng (northEast box)).
Proof.
  unfold contains. rewrite !andb_true_iff, !Qle_bool_iff. tauto.
Qed.

Lemma between_min (lo hi x y : Q) :
  lo <= x <= hi → lo <= y <= hi → lo <= Qmin x y <= hi.
Proof.
  intros [Hx1 Hx2] [Hy1 Hy2]. split.
  - now apply Q.min_glb.
  - apply Qle_trans with x; [apply Q.le_min_l | exact Hx2].
Qed.

Lemma between_max (lo hi x y : Q) :
  lo <= x <= hi → lo <= y <= hi → lo <= Qmax x y <= hi.
Proof.
  intros [Hx1 Hx2] [Hy1 Hy2]. split.
  - apply Qle_trans with x; [exact Hx1 | apply Q.le_max_l].
  - now apply Q.max_lub.
Qed.

(** The rectangle spanned by two points of a box lies in the box. *)
Lemma ring_inside (box : LatLngBounds) (p q : LatLng) :
  contains box p = true → contains box q = true → inside box (ring (toBounds p q)).
Proof.
  rewrite !contains_spec. intros [Hp1 Hp2] [Hq1 Hq2].
  pose proof (between_min _ _ _ _ Hq1 Hp1) as Hlat_min.
  pose proof (between_max _ _ _ _ Hq1 Hp1) as Hlat_max.
  pose proof (between_min _ _ _ _ Hq2 Hp2) as Hlng_min.
  pose proof (between_max _ _ _ _ Hq2 Hp2) as Hlng_max.
  unfold inside, ring, corners, toBounds, getSouthWest, getNorthEast, toLatLng.
  cbn [southWest northEast lat lng fst snd].
  repeat constructor; apply contains_spec; cbn [lat lng]; auto.
Qed.

Lemma ring_closed (box : LatLngBounds) : closed_ring (ring box).
Proof.
  unfold closed_ring, ring, corners. cbn.
  eexists _, [_; _; _]. reflexivity.
Qed.

Lemma closed_ring_map (f : Point → Point) (points : list Point) :
  closed_ring points → closed_ring (map f points).
Proof.
  intros (p & mid & ->). exists (f p), (map f mid).
  cbn [map]. now rewrite map_app.
Qed.

(** ** Regions stay inside the field box *)

Lemma init_regions_ok : regions_ok init.
Proof. unfold regions_ok. cbn. repeat split; auto; intros; discriminate. Qed.

Lemma filter_Forall {A : Type} (P : A → Prop) (f : A → bool) (l : list A) :
  Forall P l → Forall P (List.filter f l).
Proof.
  intros Hl. apply List.Forall_forall. intros x Hx. apply List.filter_In in Hx as [Hx _].
  revert x Hx. now apply List.Forall_forall.
Qed.

Ltac fm_simpl :=
  cbn [pinA pinB mode nextPin obstacles noFlyZones obstacleStart noFlyStart
       set_pinA set_pinB set_mode set_nextPin set_obstacles set_noFlyZones
       set_obstacleStart set_noFlyStart is_base negb] in *.

(** Closes the goal [regions_ok] of a state whose region lists and waiting
    corners are those of the hypotheses. *)
Ltac regions_done :=
  repeat split; auto; try discriminate; try constructor;
  try (intros; discriminate); try (intros; congruence).

Lemma step_regions_ok (s : State) (ev : Event) : regions_ok s → regions_ok (step s ev).
Proof.
  unfold regions_ok, field_box. intros (Hbase & Hobs & Hnfz & Hos & Hns).
  destruct (mode s) eqn:Hm.
  - (* base mode: nothing is stored *)
    destruct (Hbase eq_refl) as (Ho & Hz & Hso & Hsn).
    destruct ev; cbn [step]; unfold click; rewrite ?Hm; fm_simpl;
      try destruct (nextPin s); fm_simpl; rewrite ?Hm, ?Ho, ?Hz, ?Hso, ?Hsn;
      regions_done.
  - (* obstacle mode: the pins are fixed *)
    destruct ev; cbn [step]; unfold click; rewrite ?Hm; fm_simpl; rewrite ?Hm;
      try solve [regions_done]; try solve [regions_done; now apply filter_Forall].
    destruct (contains _ latlng) eqn:Hin; fm_simpl; [|rewrite Hm; regions_done].
    destruct (obstacleStart s) as [start|] eqn:Hst; fm_simpl.
    + destruct (gt _ 1); fm_simpl; rewrite ?Hm; repeat split; auto; try discriminate.
      apply Forall_app. split; [exact Hobs|]. constructor; [|constructor].
      cbn [obs_boundary]. split; [|apply ring_closed]. apply ring_inside; auto.
    + rewrite Hm. repeat split; auto; try discriminate.
      intros p [= <-]. exact Hin.
  - (* no-fly mode: the pins are fixed *)
    destruct ev; cbn [step]; unfold click; rewrite ?Hm; fm_simpl; rewrite ?Hm;
      try solve [regions_done]; try solve [regions_done; now apply filter_Forall].
    destruct (contains _ latlng) eqn:Hin; fm_simpl; [|rewrite Hm; regions_done].
    destruct (noFlyStart s) as [start|] eqn:Hst; fm_simpl.
    + destruct (gt _ 1); fm_simpl; rewrite ?Hm; repeat split; auto; try discriminate.
      apply Forall_app. split; [exact Hnfz|]. constructor; [|constructor].
      cbn [nfz_boundary]. split; [|apply ring_closed]. apply ring_inside; auto.
    + rewrite Hm. repeat split; auto; try discriminate.
      intros p [= <-]. exact Hin.
Qed.

Lemma fm_run_invariant (P : State → Prop) :
  (∀ s ev, P s → P (step s ev)) → ∀ trace s, P s → P (run s trace).
Proof.
  intros Hstep trace. unfold run.
  induction trace as [|ev trace IH]; intros s Hs; cbn [fold_left]; auto.
Qed.

Lemma reachable_regions_ok (trace : list Event) : regions_ok (run init trace).
Proof. apply fm_run_invariant; [apply step_regions_ok | apply init_regions_ok]. Qed.

(** C9.  In every state the page can reach, all points of every stored
    obstacle and no-fly zone, in particular the two corners that define it,
    lie in the rectangle spanned by the two boundary pins; and once the
    boundary is locked, a click outside that rectangle leaves the state as
    it was. *)
Theorem regions_within_boundary (trace : list Event) (latlng : LatLng) (uuid : string) :
  Forall (fun o => inside (field_box (run init trace)) (obs_boundary o))
         (obstacles (run init trace))
  ∧ Forall (fun z => inside (field_box (run init trace)) (nfz_boundary z))
           (noFlyZones (run init trace))
  ∧ (mode (run init trace) ≠ base →
     contains (field_box (run init trace)) latlng = false →
     step (run init trace) (MapClick latlng uuid) = run init trace).
Proof.
  destruct (reachable_regions_ok trace) as (_ & Hobs & Hnfz & _).
  repeat split.
  - eapply Forall_impl; [exact Hobs|]. now intros o [Hin _].
  - eapply Forall_impl; [exact Hnfz|]. now intros z [Hin _].
  - intros Hmode Hout. cbn [step]. unfold click. fold (field_box (run init trace)).
    rewrite Hout. now destruct (mode (run init trace)).
Qed.

(** ** Small rectangles are dropped *)

Lemma fm_gt_spec (x y : Q) : gt x y = true ↔ y < x.
Proof.
  unfold gt. rewrite negb_true_iff, <- not_true_iff_false, Qle_bool_iff.
  split; [apply Qnot_le_lt | apply Qlt_not_le].
Qed.

Lemma fm_gt_false (x y : Q) : x <= y → gt x y = false.
Proof.
  intros Hle. destruct (gt x y) eqn:Hgt; [|reflexivity].
  apply fm_gt_spec in Hgt. now apply Qlt_not_le in Hgt.
Qed.

(** C8.  When an accepted click completes a rectangle, the rectangle is
    appended to the list of its kind if its area exceeds one square metre,
    and otherwise both lists stay as they are; either way the waiting
    corner is cleared. *)
Theorem small_regions_discarded (s : State) (latlng : LatLng) (uuid : string)
    (box : LatLngBounds) :
  candidate s latlng = Some box →
  (rect_area box <= 1 →
   obstacles (step s (MapClick latlng uuid)) = obstacles s
   ∧ noFlyZones (step s (MapClick latlng uuid)) = noFlyZones s)
  ∧ (1 < rect_area box →
     match mode s with
     | obstacle =>
         obstacles (step s (MapClick latlng uuid)) = obstacles s ++ [new_obstacle uuid box]
         ∧ noFlyZones (step s (MapClick latlng uuid)) = noFlyZones s
     | _ =>
         obstacles (step s (MapClick latlng uuid)) = obstacles s
         ∧ noFlyZones (step s (MapClick latlng uuid))
           = noFlyZones s ++ [new_no_fly_zone uuid box]
     end)
  ∧ obstacleStart (step s (MapClick latlng uuid))
    = match mode s with obstacle => None | _ => obstacleStart s end
  ∧ noFlyStart (step s (MapClick latlng uuid))
    = match mode s with nofly => None | _ => noFlyStart s end.
Proof.
  unfold candidate. cbn [step]. unfold click. fold (field_box s).
  destruct (contains (field_box s) latlng); [|discriminate]. cbn [negb].
  destruct (mode s); [discriminate| |].
  - destruct (obstacleStart s) as [start|]; [|discriminate].
    intros [= <-].
    split; [intros Hle; rewrite (fm_gt_false _ _ Hle); now split|].
    split; [intros Hlt; apply fm_gt_spec in Hlt; rewrite Hlt; now split|].
    destruct (gt _ 1); now split.
  - destruct (noFlyStart s) as [start|]; [|discriminate].
    intros [= <-].
    split; [intros Hle; rewrite (fm_gt_false _ _ Hle); now split|].
    split; [intros Hlt; apply fm_gt_spec in Hlt; rewrite Hlt; now split|].
    destruct (gt _ 1); now split.
Qed.

(** ** Net area *)

Lemma fold_left_map_fadd {A : Type} (f : A → Q) (l : list A) (acc : Q) :
  fold_left (fun sum x => fadd sum (f x)) l acc = fold_left fadd (map f l) acc.
Proof. revert acc. induction l as [|x l IH]; intros acc; cbn; auto. Qed.

(** C10.  The net area shown by the page is the base area minus the
    summed obstacle areas minus the summed no-fly areas, clamped below at
    zero; it is never negative. *)
Theorem net_area_clamped (s : State) :
  netArea (calculateMetrics s)
  = Qmax (fsub (fsub (baseArea (calculateMetrics s)) (total (map obs_area (obstacles s))))
               (total (map nfz_area (noFlyZones s)))) 0
  ∧ baseArea (calculateMetrics s) = fmul (width (calculateMetrics s)) (length (calculateMetrics s))
  ∧ 0 <= netArea (calculateMetrics s).
Proof.
  unfold calculateMetrics, total. cbn [netArea baseArea width length].
  rewrite (fold_left_map_fadd obs_area), (fold_left_map_fadd nfz_area).
  repeat split. apply Q.le_max_r.
Qed.

(** ** The exported field map *)

Lemma exported_rings_closed {A : Type} (boundary_of : A → list Point) (mk : A → Region)
    (f : Point → Point) (l : list A) :
  (∀ x, boundary (mk x) = map f (boundary_of x)) →
  Forall (fun x => closed_ring (boundary_of x)) l →
  Forall (fun r => closed_ring (boundary r)) (map mk l).
Proof.
  intros Hmk Hl. induction Hl as [|x l Hx _ IH]; cbn [map]; constructor; auto.
  rewrite Hmk. now apply closed_ring_map.
Qed.

(** The conversion of the page is the projection about its second
    argument. *)
Lemma latLngToMeters_metres_from (p origin : LatLng) :
  latLngToMeters p origin = metres_from origin p.
Proof. reflexivity. Qed.

Lemma metres_north_zero (origin p : LatLng) :
  arithmetic_laws → lat p = lat origin → metres_north origin p == 0.
Proof.
  intros (Hsub & Hmul_l & Hmul_r & Hdiv & Hfix & _) Hlat.
  unfold metres_north, radians. rewrite Hlat.
  apply Hfix, Hmul_r, Hdiv; [apply Hmul_l, Hsub | discriminate].
Qed.

Lemma metres_east_zero (origin p : LatLng) :
  arithmetic_laws → lng p = lng origin → metres_east origin p == 0.
Proof.
  intros (Hsub & Hmul_l & Hmul_r & Hdiv & Hfix & _) Hlng.
  unfold metres_east, radians. rewrite Hlng.
  apply Hfix, Hmul_l, Hmul_r, Hdiv; [apply Hmul_l, Hsub | discriminate].
Qed.

Lemma metres_north_nonneg (origin p : LatLng) :
  arithmetic_laws → lat origin <= lat p → 0 <= metres_north origin p.
Proof.
  intros (_ & _ & _ & _ & _ & Hsub & Hmul & Hdiv & Hfix & Hpi) Hlat.
  unfold metres_north, radians.
  apply Hfix, Hmul; [discriminate|].
  apply Hdiv; [|reflexivity]. apply Hmul; [|exact Hpi]. now apply Hsub.
Qed.

Lemma metres_east_nonneg (origin p : LatLng) :
  arithmetic_laws → lng origin <= lng p →
  0 <= fcos (fdiv (fadd (radians (lat origin)) (radians (lat p))) 2) →
  0 <= metres_east origin p.
Proof.
  intros (_ & _ & _ & _ & _ & Hsub & Hmul & Hdiv & Hfix & Hpi) Hlng Hcos.
  unfold metres_east. apply Hfix, Hmul; [|exact Hcos].
  apply Hmul; [discriminate|]. unfold radians.
  apply Hdiv; [|reflexivity]. apply Hmul; [|exact Hpi]. now apply Hsub.
Qed.

Lemma south_west_least (s : State) :
  lat (south_west s) <= lat (north_east s)
  ∧ lat (south_west s) <= lat (pinA s) ∧ lat (south_west s) <= lat (pinB s)
  ∧ lng (south_west s) <= lng (pinA s) ∧ lng (south_west s) <= lng (pinB s).
Proof.
  unfold south_west, north_east, field_box, getSouthWest, getNorthEast, toBounds.
  cbn [southWest northEast lat lng].
  repeat split; auto using Q.le_min_l, Q.le_min_r.
  eapply Qle_trans; [apply Q.le_min_l | apply Q.le_max_l].
Qed.

Lemma exported_region_points {A : Type} (P : Point → Prop) (box : LatLngBounds)
    (boundary_of : A → list Point) (mk : A → Region) (f : Point → Point) (l : list A) :
  (∀ x, boundary (mk x) = map f (boundary_of x)) →
  (∀ p, contains box (toLatLng p) = true → P (f p)) →
  Forall (fun x => inside box (boundary_of x)) l →
  Forall P (concat (map boundary (map mk l))).
Proof.
  intros Hmk Hf Hl. induction Hl as [|x l Hx _ IH]; cbn [map concat]; [constructor|].
  apply Forall_app. split; [|exact IH].
  rewrite Hmk. apply Forall_map. eapply Forall_impl; [exact Hx|]. exact Hf.
Qed.

(** C5.  For the field map exported from any reachable state, with [sw]
    the south-west corner of the rectangle spanned by the pins:

    - the boundary is [(0, 0)], the south-east, north-east and north-west
      corners in metres east and north of [sw], and [(0, 0)] again;
    - [sw] itself lies 0 m east and 0 m north of [sw], so the two literal
      [(0, 0)] are its coordinates; every point on the parallel of [sw]
      has north coordinate 0 and every point on its meridian has east
      coordinate 0;
    - every obstacle and no-fly point is the stored point in metres east
      and north of [sw];
    - no exported point has a negative north coordinate, and no point of
      the field rectangle a negative east coordinate, as long as the
      cosine taken at the mean latitude is not negative;
    - every exported polygon is closed;
    - the reference point is [sw], written with six decimals, and [sw] is
      the least latitude and the least longitude of the two pins.

    The arithmetic is any that obeys [arithmetic_laws]. *)
Theorem export_relative_to_south_west (trace : list Event) (timestamp : string) :
  arithmetic_laws →
  fm_boundary (exportJSON timestamp (run init trace))
  = [(0, 0);
     metres_from (south_west (run init trace)) (south_east (run init trace));
     metres_from (south_west (run init trace)) (north_east (run init trace));
     metres_from (south_west (run init trace)) (north_west (run init trace));
     (0, 0)]
  ∧ (metres_east (south_west (run init trace)) (south_west (run init trace)) == 0
     ∧ metres_north (south_west (run init trace)) (south_west (run init trace)) == 0)
  ∧ (∀ p, lat p = lat (south_west (run init trace)) →
          metres_north (south_west (run init trace)) p == 0)
  ∧ (∀ p, lng p = lng (south_west (run init trace)) →
          metres_east (south_west (run init trace)) p == 0)
  ∧ map boundary (fm_obstacles (exportJSON timestamp (run init trace)))
    = map (fun o => map (fun p => metres_from (south_west (run init trace)) (toLatLng p))
                        (obs_boundary o))
          (obstacles (run init trace))
  ∧ map boundary (fm_no_fly_zones (exportJSON timestamp (run init trace)))
    = map (fun z => map (fun p => metres_from (south_west (run init trace)) (toLatLng p))
                        (nfz_boundary z))
          (noFlyZones (run init trace))
  ∧ Forall (fun point => 0 <= snd point)
           (exported_points (exportJSON timestamp (run init trace)))
  ∧ (∀ p, contains (field_box (run init trace)) p = true →
          0 <= fcos (fdiv (fadd (radians (lat (south_west (run init trace))))
                                (radians (lat p))) 2) →
          0 <= metres_east (south_west (run init trace)) p)
  ∧ closed_ring (fm_boundary (exportJSON timestamp (run init trace)))
  ∧ Forall (fun r => closed_ring (boundary r))
           (fm_obstacles (exportJSON timestamp (run init trace))
            ++ fm_no_fly_zones (exportJSON timestamp (run init trace)))
  ∧ reference_point (exportJSON timestamp (run init trace))
    = (toFixed 6 (lat (south_west (run init trace))),
       toFixed 6 (lng (south_west (run init trace))))
  ∧ (lat (south_west (run init trace)) <= lat (pinA (run init trace))
     ∧ lat (south_west (run init trace)) <= lat (pinB (run init trace))
     ∧ lng (south_west (run init trace)) <= lng (pinA (run init trace))
     ∧ lng (south_west (run init trace)) <= lng (pinB (run init trace))).
Proof.
  intros Hlaws.
  destruct (reachable_regions_ok trace) as (_ & Hobs & Hnfz & _).
  set (s := run init trace) in *.
  destruct (south_west_least s) as (Hne & Hleast).
  assert (∀ p, contains (field_box s) (toLatLng p) = true →
               0 <= snd (latLngToMeters (toLatLng p) (south_west s))) as Hnorth.
  { intros p Hp. apply contains_spec in Hp as [[Hlat _] _].
    rewrite latLngToMeters_metres_from. cbn [metres_from snd].
    now apply metres_north_nonneg. }
  split; [reflexivity|].
  split; [split; [now apply metres_east_zero | now apply metres_north_zero]|].
  split; [intros p Hp; now apply metres_north_zero|].
  split; [intros p Hp; now apply metres_east_zero|].
  split; [unfold exportJSON, corners; cbn [fm_obstacles]; rewrite map_map; reflexivity|].
  split; [unfold exportJSON, corners; cbn [fm_no_fly_zones]; rewrite map_map; reflexivity|].
  split.
  { unfold exported_points. apply Forall_app. split.
    - change (fm_boundary (exportJSON timestamp s))
        with [(0, 0); metres_from (south_west s) (south_east s);
              metres_from (south_west s) (north_east s);
              metres_from (south_west s) (north_west s); (0, 0)].
      repeat constructor; cbn [metres_from snd]; try apply Qle_refl.
      + apply metres_north_nonneg; [exact Hlaws | apply Qle_refl].
      + apply metres_north_nonneg; [exact Hlaws | exact Hne].
      + apply metres_north_nonneg; [exact Hlaws | exact Hne].
    - rewrite map_app, concat_app. apply Forall_app. split.
      + unfold exportJSON, corners. cbn [fm_obstacles].
        eapply (exported_region_points _ (field_box s)); [intros o; reflexivity|exact Hnorth|].
        eapply Forall_impl; [exact Hobs|]. now intros o [Hin _].
      + unfold exportJSON, corners. cbn [fm_no_fly_zones].
        eapply (exported_region_points _ (field_box s)); [intros z; reflexivity|exact Hnorth|].
        eapply Forall_impl; [exact Hnfz|]. now intros z [Hin _]. }
  split.
  { intros p Hp Hcos. apply contains_spec in Hp as [_ [Hlng _]].
    now apply metres_east_nonneg. }
  split; [eexists _, [_; _; _]; reflexivity|].
  split.
  { unfold exportJSON, corners. cbn [fm_obstacles fm_no_fly_zones].
    apply Forall_app. split.
    - eapply exported_rings_closed; [intros o; reflexivity|].
      eapply Forall_impl; [exact Hobs|]. now intros o [_ Hc].
    - eapply exported_rings_closed; [intros z; reflexivity|].
      eapply Forall_impl; [exact Hnfz|]. now intros z [_ Hc]. }
  split; [reflexivity|exact Hleast].
Qed.

End FarmMappingFacts.

(** * The pages run on concrete inputs *)

Section FarmMappingExamples.
Import FarmMapping.
#[local] Existing Instance exact.
#[local] Open Scope Q_scope.

(** The hypothesis of C8 holds when the second corner of an obstacle is
    clicked inside the locked boundary. *)
Lemma small_regions_discarded_witness :
  candidate (run init first_corner_placed) corner2 = Some (toBounds corner1 corner2)
  ∧ obstacles (step (run init first_corner_placed) (MapClick corner2 "id-2"))
    = [new_obstacle "id-2" (toBounds corner1 corner2)].
Proof.
  assert (candidate (run init first_corner_placed) corner2 = Some (toBounds corner1 corner2))
    as Hcandidate by (vm_compute; reflexivity).
  split; [exact Hcandidate|].
  pose proof (small_regions_discarded (run init first_corner_placed) corner2 "id-2"
                (toBounds corner1 corner2) Hcandidate) as (_ & Hbig & _).
  assert (1 < rect_area (toBounds corner1 corner2)) as Harea by (vm_compute; reflexivity).
  specialize (Hbig Harea). vm_compute in Hbig. vm_compute. exact (proj1 Hbig).
Defined.

(** A rectangle of a few square centimetres is dropped, and a click
    outside the boundary changes nothing. *)
Example tiny_rectangle_dropped :
  obstacles (run init (first_corner_placed ++ [MapClick corner_near "id-2"])) = []
  ∧ obstacleStart (run init (first_corner_placed ++ [MapClick corner_near "id-2"])) = None
  ∧ run init (first_corner_placed ++ [MapClick corner_outside "id-2"])
    = run init first_corner_placed.
Proof. vm_compute. auto. Qed.

(** The export of one obstacle, evaluated with the interpretation [exact]:
    closed polygons in metres from the south-west pin.  The figures are
    those of [exact] (pi as 355/113, a polynomial for the cosine); the
    browser's own arithmetic gives slightly different centimetres. *)
Example export_example :
  fm_boundary (exportJSON "20250101T000000"
                 (run init (first_corner_placed ++ [MapClick corner2 "id-2"])))
  = [(0, 0); (247.35, 0.00); (247.34, 211.27); (0.00, 211.27); (0, 0)]
  ∧ map boundary (fm_obstacles (exportJSON "20250101T000000"
                    (run init (first_corner_placed ++ [MapClick corner2 "id-2"]))))
    = [[(97.17, 33.36); (185.51, 33.36); (185.51, 88.96); (97.17, 88.96); (97.17, 33.36)]].
Proof. vm_compute. auto. Qed.

End FarmMappingExamples.

(** * Further properties of the mission control page *)

Section MissionControlMore.
Import Js MissionControl.

(** One step unfolded down to record updates, and fields read through
    them. *)
Ltac page_unfold :=
  unfold step, handle, onopen, onmessage, onclose, handleKeyDown, handleKeyUp,
    connectDrone, startStream, executeMission, emergencyStop, takeoff, sendCommand,
    setTimeout, setInterval, clearInterval, socket_send;
  repeat case_match;
  rewrite ?sendManualCommands_tick_result;
  unfold tick_result; rewrite ?send_all_open;
  repeat case_match.


Ltac page_simpl :=
  cbn [
    ws connected droneConnected streaming videoFrame telemetry missionStatus
    fieldMap flightPlan altitude overlap manualMode keysPressed controlInterval
    readyState listeners intervals timeouts nextTimer sent set_ws set_connected
    set_droneConnected set_streaming set_videoFrame set_telemetry
    set_missionStatus set_fieldMap set_flightPlan set_altitude set_overlap
    set_manualMode set_keysPressed set_controlInterval set_readyState
    set_listeners set_intervals set_timeouts set_nextTimer set_sent cap_ws
    cap_droneConnected iv_id iv_period_ms iv_callback to_id to_delay_ms
  ] in *.

Lemma rerender_ws (before after : State) : ws (rerender before after) = ws after.
Proof.
  unfold rerender, keyboard_effect, effect_cleanup, clearInterval.
  repeat case_match; reflexivity.
Qed.

Lemma rerender_connected (before after : State) :
  connected (rerender before after) = connected after.
Proof.
  unfold rerender, keyboard_effect, effect_cleanup, clearInterval.
  repeat case_match; reflexivity.
Qed.

Lemma rerender_streaming (before after : State) :
  streaming (rerender before after) = streaming after.
Proof.
  unfold rerender, keyboard_effect, effect_cleanup, clearInterval.
  repeat case_match; reflexivity.
Qed.

Lemma rerender_manualMode (before after : State) :
  manualMode (rerender before after) = manualMode after.
Proof.
  unfold rerender, keyboard_effect, effect_cleanup, clearInterval.
  repeat case_match; reflexivity.
Qed.

Lemma rerender_keysPressed (before after : State) :
  keysPressed (rerender before after) = keysPressed after.
Proof.
  unfold rerender, keyboard_effect, effect_cleanup, clearInterval.
  repeat case_match; reflexivity.
Qed.

(** ** The hooks mirror the socket *)

Lemma handle_socket_frame (s : State) (ev : Event) :
  match ev with
  | WsOpen | WsClose => True
  | _ => ws (handle ev s) = ws s ∧ connected (handle ev s) = connected s
         ∧ readyState (handle ev s) = readyState s
  end.
Proof. destruct ev; try exact I; page_unfold; page_simpl; repeat split; congruence. Qed.

Lemma step_socket_ok (s : State) (ev : Event) : socket_ok s → socket_ok (step s ev).
Proof.
  unfold socket_ok, step. intros Hs.
  rewrite rerender_readyState, rerender_ws, rerender_connected.
  pose proof (handle_socket_frame s ev) as Hframe.
  destruct ev; try (destruct Hframe as (-> & -> & ->); exact Hs); cbn [handle].
  - destruct (readyState s) eqn:Hrs; [now split|rewrite Hrs; exact Hs..].
  - destruct (readyState s) eqn:Hrs; [now split|now split|now rewrite Hrs].
Qed.

Lemma reachable_socket_ok (trace : list Event) : socket_ok (run init trace).
Proof. apply run_invariant; [apply step_socket_ok|]. now split. Qed.

(** X1.  In every reachable state the Server Connected badge tells the
    truth about the socket: [connected] is true exactly when the socket is
    open, and exactly then the [ws] hook holds the socket. *)
Theorem connected_iff_socket_open (trace : list Event) :
  (connected (run init trace) = true ↔ readyState (run init trace) = OPEN)
  ∧ (is_Some (ws (run init trace)) ↔ readyState (run init trace) = OPEN).
Proof.
  pose proof (reachable_socket_ok trace) as Hs. unfold socket_ok in Hs.
  destruct (readyState (run init trace)); destruct Hs as [Hws Hc]; rewrite Hws, Hc.
  - split; split; try discriminate. intros [w Hw]. discriminate Hw.
  - split; split; eauto.
  - split; split; try discriminate. intros [w Hw]. discriminate Hw.
Qed.

(** ** Manual mode and its timer *)

Lemma handle_manualMode_true (s : State) (ev : Event) :
  manualMode (handle ev s) = true → manualMode s = true ∨ droneConnected s = true.
Proof.
  destruct ev; page_unfold; page_simpl; auto; try discriminate.
  all: match goal with
       | H : droneConnected _ = true |- _ => intros _; right; exact H
       | _ => idtac
       end.
Qed.

Lemma handle_keys_frame (s : State) (ev : Event) :
  is_key_event ev = false → keysPressed (handle ev s) = keysPressed s.
Proof. destruct ev; try discriminate; intros _; page_unfold; reflexivity. Qed.

Lemma step_intervals_nonkey (s : State) (ev : Event) :
  interval_ok s → is_key_event ev = false →
  intervals (step s ev) = intervals s ∨ intervals (step s ev) = [].
Proof.
  intros Hi Hk. unfold step.
  destruct (decide ((manualMode s, droneConnected s)
                    = (manualMode (handle ev s), droneConnected (handle ev s)))) as [Heq|Hne].
  - left. unfold rerender. rewrite bool_decide_eq_true_2 by exact Heq.
    now destruct (handle_timer_frame s ev Hk) as (-> & _).
  - right. apply rerender_changed_intervals; [now apply handle_interval_ok | exact Hne].
Qed.

Lemma step_manual_ok (s : State) (ev : Event) :
  timers_ok s → manual_ok s → manual_ok (step s ev).
Proof.
  intros Hok [Hmd Hkeys]. split.
  - unfold step at 1. rewrite rerender_manualMode. intros Hm.
    rewrite step_droneConnected.
    destruct (handle_manualMode_true s ev Hm) as [Hm' | Hd]; [rewrite Hmd by exact Hm'|rewrite Hd];
      reflexivity.
  - destruct (is_key_event ev) eqn:Hk.
    + destruct ev; try discriminate.
      * (* key down *)
        unfold step. rewrite rerender_keysPressed. cbn [handle].
        destruct (listeners s) as [c|] eqn:Hl.
        -- intros _. unfold handleKeyDown, setInterval.
           destruct (controlInterval _); page_simpl; set_solver.
        -- rewrite rerender_same. exact Hkeys.
      * (* key up *)
        intros Hlive Hempty. apply Hlive. now apply keyup_cancels.
    + unfold step at 2. rewrite rerender_keysPressed, handle_keys_frame by exact Hk.
      destruct Hok as [Hi _].
      destruct (step_intervals_nonkey s ev Hi Hk) as [-> | ->]; [exact Hkeys|congruence].
Qed.

Lemma reachable_manual_ok (trace : list Event) :
  timers_ok (run init trace) ∧ manual_ok (run init trace).
Proof.
  apply (run_invariant (fun s => timers_ok s ∧ manual_ok s)).
  - intros s ev [Ht Hm]. split; [now apply step_timers_ok | now apply step_manual_ok].
  - split; [apply init_timers_ok|]. split; [discriminate|]. intros Habs. now contradiction Habs.
Qed.

(** X2.  In every reachable state at most one sampling timer is live, and
    while one is live manual mode is on, the drone-connected flag is set
    and at least one key is recorded as held. *)
Theorem single_timer_only_in_manual_mode (trace : list Event) :
  (length (intervals (run init trace)) ≤ 1)%nat
  ∧ (intervals (run init trace) ≠ [] →
     manualMode (run init trace) = true
     ∧ droneConnected (run init trace) = true
     ∧ keysPressed (run init trace) ≠ ∅).
Proof.
  destruct (reachable_manual_ok trace) as [[Hi Hl] [Hmd Hkeys]].
  unfold interval_ok in Hi.
  destruct (intervals (run init trace)) as [|iv [|iv' rest]] eqn:Hiv; [| |contradiction].
  - split; [cbn; lia|]. intros Habs. now contradiction Habs.
  - split; [cbn; lia|]. intros _.
    destruct Hi as (_ & Hsome & _).
    assert (manualMode (run init trace) = true) as Hm by auto.
    repeat split; auto.
Qed.

Lemma reachable_idle_before_connect (trace : list Event) :
  droneConnected (run init trace) = false →
  manualMode (run init trace) = false ∧ listeners (run init trace) = None
  ∧ intervals (run init trace) = [].
Proof.
  intros Hdc. destruct (reachable_manual_ok trace) as [[Hi Hl] [Hmd _]].
  assert (manualMode (run init trace) = false) as Hm.
  { destruct (manualMode (run init trace)); [|reflexivity]. rewrite Hmd in Hdc; auto. }
  assert (listeners (run init trace) = None) as Hnone.
  { destruct (listeners (run init trace)) eqn:Hls; [|reflexivity].
    rewrite Hl in Hm by eauto. discriminate. }
  repeat split; auto. now apply interval_ok_no_listeners.
Qed.

(** X3.  Until the drone-connected flag is set the page sends no flight
    command: whatever the operator does, a step sends nothing, or the
    connect request, or the emergency stop. *)
Theorem no_flight_command_before_connect (trace : list Event) (ev : Event) :
  droneConnected (run init trace) = false →
  ∃ frames, sent (step (run init trace) ev) = sent (run init trace) ++ frames
            ∧ (frames = [] ∨ frames = [connect_frame] ∨ frames = [emergency_frame]).
Proof.
  intros Hdc. destruct (reachable_idle_before_connect trace Hdc) as (Hm & Hl & Hi).
  set (s := run init trace) in *.
  unfold step. rewrite rerender_sent.
  destruct ev; cbn [handle]; rewrite ?Hdc, ?Hl; cbn [andb negb];
    try (exists []; split; [now rewrite app_nil_r | now left]).
  - destruct (readyState s); [unfold onopen| |];
      exists []; (split; [now rewrite app_nil_r | now left]).
  - assert (sent (onmessage parsed s) = sent s) as Hmsg.
    { unfold onmessage. repeat case_match; reflexivity. }
    destruct (readyState s); rewrite ?Hmsg;
      exists []; (split; [now rewrite app_nil_r | now left]).
  - destruct (readyState s); [|unfold onclose..];
      exists []; (split; [now rewrite app_nil_r | now left]).
  - unfold find_interval. rewrite Hi. exists []. split; [now rewrite app_nil_r | now left].
  - destruct (is_pending id s); exists []; (split; [now rewrite app_nil_r | now left]).
  - rewrite andb_true_r. unfold connectDrone, setTimeout, socket_send.
    destruct (connected s), (ws s), (readyState s); page_simpl;
      first [ exists []; split; [now rewrite app_nil_r | now left]
            | exists [connect_frame]; split; [reflexivity | right; now left] ].
  - destruct parsed; exists []; (split; [now rewrite app_nil_r | now left]).
  - unfold emergencyStop, socket_send.
    destruct (ws s), (readyState s); page_simpl;
      first [ exists []; split; [now rewrite app_nil_r | now left]
            | exists [emergency_frame]; split; [reflexivity | right; now right] ].
Qed.

(** The precondition of X3 holds when the page has just opened its
    socket and the operator clicks Connect Drone. *)
Lemma no_flight_command_before_connect_witness :
  ∃ frames, sent (step (run init [WsOpen]) ClickConnectDrone)
            = sent (run init [WsOpen]) ++ frames
            ∧ (frames = [] ∨ frames = [connect_frame] ∨ frames = [emergency_frame]).
Proof. apply (no_flight_command_before_connect [WsOpen] ClickConnectDrone). reflexivity. Defined.

(** ** A ref left behind by the effect cleanup *)

Lemma keydown_stale_ref (s : State) (key : string) :
  stale_ref s → stale_ref (step s (KeyDown key)) ∧ sent (step s (KeyDown key)) = sent s.
Proof.
  intros [[id Hc] Hi].
  assert (step s (KeyDown key) = handle (KeyDown key) s) as ->.
  { unfold step, rerender. rewrite bool_decide_eq_true_2; [reflexivity|].
    cbn [handle]. destruct (listeners s); [|reflexivity].
    unfold handleKeyDown. page_simpl. now rewrite Hc. }
  cbn [handle]. destruct (listeners s); [|repeat split; eauto].
  unfold handleKeyDown, stale_ref. page_simpl. rewrite Hc. page_simpl.
  rewrite Hc, Hi. repeat split; eauto.
Qed.

(** X4.  The effect cleanup clears the timer but leaves its id in the
    ref.  While the ref names a timer that is no longer live, pressing keys
    starts no timer, so however many keys go down no manual command is
    sent. *)
Theorem stale_ref_blocks_manual_control (s : State) (keys : list string) :
  stale_ref s →
  intervals (run s (map KeyDown keys)) = []
  ∧ sent (run s (map KeyDown keys)) = sent s.
Proof.
  revert s. induction keys as [|key keys IH]; intros s Hs.
  - destruct Hs as [_ Hi]. now split.
  - cbn [map]. change (run s (KeyDown key :: map KeyDown keys))
      with (run (step s (KeyDown key)) (map KeyDown keys)).
    destruct (keydown_stale_ref s key Hs) as [Hs' Hsent].
    destruct (IH _ Hs') as [Hi Hsent']. split; [exact Hi|congruence].
Qed.

(** The precondition of X4 is reached by switching manual mode off and on
    again while W is held: pressing further keys then starts no timer. *)
Lemma stale_ref_blocks_manual_control_witness :
  stale_ref (run init manual_toggled_while_held)
  ∧ manualMode (run init manual_toggled_while_held) = true
  ∧ intervals (run (run init manual_toggled_while_held) (map KeyDown ["a"; "d"])) = []
  ∧ sent (run (run init manual_toggled_while_held) (map KeyDown ["a"; "d"]))
    = sent (run init manual_toggled_while_held).
Proof.
  assert (stale_ref (run init manual_toggled_while_held)) as Hstale.
  { split; [exists 2%nat|]; vm_compute; reflexivity. }
  split; [exact Hstale|]. split; [vm_compute; reflexivity|].
  exact (stale_ref_blocks_manual_control _ ["a"; "d"] Hstale).
Defined.

(** ** Landing with the space bar *)

Lemma commands_for_land (keys : gset string) :
  has keys " " = true → ∃ front, commands_for keys = front ++ [land_frame].
Proof.
  intros Hsp. rewrite commands_for_unfold, Hsp.
  eexists. rewrite !app_assoc. reflexivity.
Qed.

Lemma listeners_off_without_manual (s : State) :
  timers_ok s → manualMode s = false → listeners s = None.
Proof.
  intros [_ Hl] Hm. destruct (listeners s) eqn:Hls; [|reflexivity].
  rewrite Hl in Hm by eauto. discriminate.
Qed.

(** X5.  When a tick of the live timer finds Space held and can reach the
    link, the land command is the last frame it sends; the tick turns
    manual mode off, and with it the timer and the key listeners are
    gone. *)
Theorem space_lands_and_leaves_manual_mode (trace : list Event) (id : nat) (iv : Interval) :
  find_interval id (run init trace) = Some iv →
  can_send (iv_callback iv) (run init trace) = true →
  has (keysPressed (run init trace)) " " = true →
  (∃ front, sent (step (run init trace) (IntervalTick id))
            = sent (run init trace) ++ front ++ [land_frame])
  ∧ manualMode (step (run init trace) (IntervalTick id)) = false
  ∧ intervals (step (run init trace) (IntervalTick id)) = []
  ∧ listeners (step (run init trace) (IntervalTick id)) = None.
Proof.
  intros Hfind Hcan Hsp.
  pose proof (reachable_timers_ok trace) as Hok.
  pose proof (step_timers_ok _ (IntervalTick id) Hok) as Hok'.
  set (s := run init trace) in *.
  assert (manualMode (step s (IntervalTick id)) = false) as Hm'.
  { unfold step. rewrite rerender_manualMode. cbn [handle]. rewrite Hfind.
    rewrite sendManualCommands_tick_result. unfold tick_result.
    unfold can_send in Hcan. apply andb_true_iff in Hcan as [Hcan _].
    apply andb_true_iff in Hcan as [Hws Hdc]. apply bool_decide_eq_true_1 in Hws as [w Hw].
    rewrite Hw, Hdc, Hsp. reflexivity. }
  split; [|split; [exact Hm'|split]].
  - rewrite step_tick_sent. unfold tick_frames. rewrite Hfind, Hcan.
    destruct (commands_for_land _ Hsp) as [front ->]. now exists front.
  - assert (manualMode s = true) as Hm.
    { destruct Hok as [Hi Hl]. apply Hl. unfold interval_ok, find_interval in *.
      destruct (intervals s) as [|iv0 [|iv1 rest]]; [discriminate| |contradiction].
      now destruct Hi as (_ & Hsome & _). }
    unfold step. apply rerender_changed_intervals.
    + apply handle_interval_ok, Hok.
    + intros Heq. injection Heq as Heq _.
      fold (step s (IntervalTick id)) in Hm'. unfold step in Hm'.
      rewrite rerender_manualMode in Hm'. cbn [handle] in Hm'. congruence.
  - now apply listeners_off_without_manual.
Qed.

(** The preconditions of X5 hold in a manual session with W and Space
    held. *)
Lemma space_lands_and_leaves_manual_mode_witness :
  (∃ front, sent (step (run init (manual_session ++ [KeyDown "w"; KeyDown " "]))
                       (IntervalTick 2))
            = sent (run init (manual_session ++ [KeyDown "w"; KeyDown " "]))
              ++ front ++ [land_frame])
  ∧ manualMode (step (run init (manual_session ++ [KeyDown "w"; KeyDown " "]))
                     (IntervalTick 2)) = false
  ∧ intervals (step (run init (manual_session ++ [KeyDown "w"; KeyDown " "]))
                    (IntervalTick 2)) = []
  ∧ listeners (step (run init (manual_session ++ [KeyDown "w"; KeyDown " "]))
                    (IntervalTick 2)) = None.
Proof.
  apply (space_lands_and_leaves_manual_mode
           (manual_session ++ [KeyDown "w"; KeyDown " "]) 2
           {| iv_id := 2; iv_period_ms := 200;
              iv_callback := {| cap_ws := Some DroneServerSocket;
                                cap_droneConnected := true |} |});
    vm_compute; reflexivity.
Defined.

(** ** Pressing and releasing one key *)



(** ** What an inbound message can change *)

Lemma onmessage_hooks (parsed : option JSON) (s : State) :
  onmessage parsed s
  = set_missionStatus (missionStatus (onmessage parsed s))
      (set_telemetry (telemetry (onmessage parsed s))
         (set_videoFrame (videoFrame (onmessage parsed s)) s)).
Proof. unfold onmessage. destruct s. repeat case_match; reflexivity. Qed.

Lemma onmessage_telemetry (parsed : option JSON) (s : State) :
  telemetry (onmessage parsed s)
  = match carried_telemetry parsed with
    | Some t => t
    | None => telemetry s
    end.
Proof.
  unfold onmessage, carried_telemetry.
  destruct parsed as [data|]; [|reflexivity].
  destruct data; cbn [get is_str]; try reflexivity.
  destruct (is_str "video_frame" (assoc "type" fields)).
  - destruct (assoc "telemetry" fields) as [t|]; [destruct (truthy t)|];
      case_match; reflexivity.
  - case_match; reflexivity.
Qed.

(** X7.  Whatever arrives on the socket, the page changes at most the
    video frame, the telemetry and the mission status: it sends nothing and
    touches no flag, timer or plan.  The telemetry afterwards is the
    telemetry value of the message when the socket is open and the message
    is a video frame whose telemetry is truthy, and the previous reading in
    every other case, so a frame without telemetry never blanks the last
    reading. *)
Theorem inbound_message_touches_three_hooks (s : State) (parsed : option JSON) :
  step s (WsMessage parsed)
  = set_missionStatus (missionStatus (step s (WsMessage parsed)))
      (set_telemetry (telemetry (step s (WsMessage parsed)))
         (set_videoFrame (videoFrame (step s (WsMessage parsed))) s))
  ∧ telemetry (step s (WsMessage parsed))
    = match readyState s, carried_telemetry parsed with
      | OPEN, Some t => t
      | _, _ => telemetry s
      end
  ∧ (∀ data, parsed = Some data → get "telemetry" data = None →
       telemetry (step s (WsMessage parsed)) = telemetry s).
Proof.
  assert (step s (WsMessage parsed) = match readyState s with
                                      | OPEN => onmessage parsed s
                                      | _ => s
                                      end) as ->.
  { unfold step. cbn [handle].
    destruct (readyState s); [apply rerender_same| |apply rerender_same].
    unfold rerender. rewrite bool_decide_eq_true_2; [reflexivity|].
    rewrite (onmessage_hooks parsed s). reflexivity. }
  assert (∀ data, parsed = Some data → get "telemetry" data = None →
            carried_telemetry parsed = None) as Hnone.
  { intros data -> Hno. unfold carried_telemetry. rewrite Hno. now case_match. }
  destruct (readyState s).
  - split; [now destruct s|]. split; [reflexivity|]. reflexivity.
  - split; [apply onmessage_hooks|]. split; [apply onmessage_telemetry|].
    intros data Hp Hno. rewrite onmessage_telemetry, (Hnone data Hp Hno). reflexivity.
  - split; [now destruct s|]. split; [reflexivity|]. reflexivity.
Qed.

(** A video frame without telemetry keeps the reading of the frame
    before it. *)
Example frame_without_telemetry_keeps_reading :
  telemetry (run init [WsOpen;
                       WsMessage (Some (JObj [("type", JStr "video_frame");
                                              ("data", JStr "AAAA");
                                              ("telemetry", JObj [("battery", JNum 87)])]));
                       WsMessage (Some (JObj [("type", JStr "video_frame");
                                              ("data", JStr "BBBB")]))])
  = JObj [("battery", JNum 87)].
Proof. vm_compute. reflexivity. Qed.

(** ** Flags that are never reset *)

Lemma step_streaming_le (s : State) (ev : Event) :
  Bool.le (streaming s) (streaming (step s ev)).
Proof.
  unfold step. rewrite rerender_streaming.
  destruct (streaming s) eqn:Hs; [|exact I]. cbn [Bool.le].
  destruct ev; page_unfold; page_simpl; congruence.
Qed.

Lemma bool_le_trans (x y z : bool) : Bool.le x y → Bool.le y z → Bool.le x z.
Proof. destruct x, y, z; cbn; auto. Qed.

(** X8.  The page never clears the drone-connected flag or the streaming
    flag: along any sequence of events, losing the socket included, a flag
    that is set stays set. *)
Theorem drone_and_stream_flags_never_reset (s : State) (trace : list Event) :
  Bool.le (droneConnected s) (droneConnected (run s trace))
  ∧ Bool.le (streaming s) (streaming (run s trace)).
Proof.
  assert (∀ t, Bool.le (droneConnected s) (droneConnected t) ∧ Bool.le (streaming s) (streaming t) →
               ∀ ev, Bool.le (droneConnected s) (droneConnected (step t ev))
                     ∧ Bool.le (streaming s) (streaming (step t ev))) as Hstep.
  { intros t [Hd Hs] ev. split.
    - apply bool_le_trans with (droneConnected t); [exact Hd|].
      rewrite step_droneConnected. destruct (droneConnected t); cbn; auto.
    - apply bool_le_trans with (streaming t); [exact Hs | apply step_streaming_le]. }
  assert (Bool.le (droneConnected s) (droneConnected s) ∧ Bool.le (streaming s) (streaming s))
    as Hrefl by (destruct (droneConnected s), (streaming s); cbn; auto).
  pose proof (run_invariant
                (fun t => Bool.le (droneConnected s) (droneConnected t)
                          ∧ Bool.le (streaming s) (streaming t))
                (fun t ev Ht => Hstep t Ht ev) trace s Hrefl) as [Hd Hs].
  split; assumption.
Qed.

(** ** The stream is started once *)

Lemma count_action_app (action : string) (l1 l2 : list JSON) :
  count_action action (l1 ++ l2) = (count_action action l1 + count_action action l2)%nat.
Proof. unfold count_action. now rewrite List.filter_app, length_app. Qed.

Lemma count_action_none (action : string) (frames : list JSON) :
  Forall (fun f => has_action action f = false) frames → count_action action frames = 0%nat.
Proof.
  unfold count_action. induction 1 as [|f l Hf _ IH]; [reflexivity|].
  cbn [List.filter]. now rewrite Hf.
Qed.

Lemma commands_for_Forall (P : JSON → Prop) (keys : gset string) :
  Forall P (map snd key_table) → Forall P (commands_for keys).
Proof.
  intros Hall. unfold commands_for. apply List.Forall_forall. intros f Hf.
  apply List.in_map_iff in Hf as [[k f'] [<- Hin]]. apply List.filter_In in Hin as [Hin _].
  rewrite List.Forall_forall in Hall. apply Hall.
  apply List.in_map_iff. now exists (k, f').
Qed.

Lemma commands_for_no_start_stream (keys : gset string) :
  Forall (fun f => has_action "start_stream" f = false) (commands_for keys).
Proof. apply commands_for_Forall. unfold key_table. cbn [map snd]. repeat constructor. Qed.

Lemma handle_no_start_stream (s : State) (ev : Event) :
  match ev with
  | ClickStartStream => True
  | _ => streaming (handle ev s) = streaming s
         ∧ ∃ frames, sent (handle ev s) = sent s ++ frames
                     ∧ Forall (fun f => has_action "start_stream" f = false) frames
  end.
Proof.
  destruct ev; try exact I; page_unfold; page_simpl; (split; [reflexivity|]).
  all: first [ exists []; split; [now rewrite app_nil_r | constructor]
             | eexists; split; [reflexivity|];
               first [ apply commands_for_no_start_stream | repeat constructor ] ].
Qed.

Lemma step_stream_count (s : State) (ev : Event) :
  socket_ok s →
  count_action "start_stream" (sent s) = (if streaming s then 1 else 0)%nat →
  count_action "start_stream" (sent (step s ev))
  = (if streaming (step s ev) then 1 else 0)%nat.
Proof.
  intros Hsock Hs. unfold step. rewrite rerender_sent, rerender_streaming.
  pose proof (handle_no_start_stream s ev) as Hframe.
  destruct ev; try (destruct Hframe as (-> & frames & -> & Hnone);
                    now rewrite count_action_app, (count_action_none _ _ Hnone), Nat.add_0_r).
  cbn [handle]. unfold startStream, socket_send, socket_ok in *.
  destruct (droneConnected s); cbn [andb]; [|exact Hs].
  destruct (streaming s) eqn:Hst; cbn [negb]; [now rewrite Hst|].
  destruct (ws s) as [w|] eqn:Hws; [|now rewrite Hst].
  destruct (readyState s); destruct Hsock as [Hw _]; try congruence.
  page_simpl. now rewrite count_action_app, Hs.
Qed.

(** X9.  The start_stream request goes out at most once: in every
    reachable state the number of start_stream frames sent so far is one if
    the streaming flag is set and zero otherwise. *)
Theorem start_stream_sent_once (trace : list Event) :
  count_action "start_stream" (sent (run init trace))
  = (if streaming (run init trace) then 1 else 0)%nat.
Proof.
  apply (run_invariant
           (fun s => socket_ok s
                     ∧ count_action "start_stream" (sent s)
                       = (if streaming s then 1 else 0)%nat)).
  - intros s ev [Hsock Hs]. split; [now apply step_socket_ok | now apply step_stream_count].
  - split; [now split | reflexivity].
Qed.

(** ** The emergency stop while the server is connected *)

(** X10.  In every reachable state in which the page shows the server as
    connected, pressing the emergency stop sends exactly one frame, the
    emergency_stop request, and leaves manual mode off with no timer live
    and no key listener installed. *)
Theorem emergency_stop_when_connected (trace : list Event) :
  connected (run init trace) = true →
  sent (step (run init trace) ClickEmergencyStop)
  = sent (run init trace) ++ [emergency_frame]
  ∧ manualMode (step (run init trace) ClickEmergencyStop) = false
  ∧ intervals (step (run init trace) ClickEmergencyStop) = []
  ∧ listeners (step (run init trace) ClickEmergencyStop) = None.
Proof.
  intros Hconn.
  pose proof (reachable_socket_ok trace) as Hsock.
  pose proof (reachable_timers_ok trace) as Hok.
  pose proof (step_timers_ok _ ClickEmergencyStop Hok) as Hok'.
  set (s := run init trace) in *.
  unfold socket_ok in Hsock.
  destruct (readyState s) eqn:Hrs; destruct Hsock as [Hws Hc]; try congruence.
  assert (sent (step s ClickEmergencyStop) = sent s ++ [emergency_frame]) as Hsent.
  { unfold step. rewrite rerender_sent. cbn [handle].
    unfold emergencyStop, socket_send. rewrite Hws, Hrs. reflexivity. }
  assert (manualMode (step s ClickEmergencyStop) = false) as Hm.
  { unfold step. rewrite rerender_manualMode. cbn [handle].
    unfold emergencyStop. rewrite Hws. reflexivity. }
  repeat split; auto.
  - now apply emergency_stop_cancels.
  - now apply listeners_off_without_manual.
Qed.

(** The precondition of X10 holds in a manual session with W held. *)
Lemma emergency_stop_when_connected_witness :
  sent (step (run init (manual_session ++ [KeyDown "w"])) ClickEmergencyStop)
  = sent (run init (manual_session ++ [KeyDown "w"])) ++ [emergency_frame]
  ∧ manualMode (step (run init (manual_session ++ [KeyDown "w"])) ClickEmergencyStop) = false
  ∧ intervals (step (run init (manual_session ++ [KeyDown "w"])) ClickEmergencyStop) = []
  ∧ listeners (step (run init (manual_session ++ [KeyDown "w"])) ClickEmergencyStop) = None.
Proof.
  apply (emergency_stop_when_connected (manual_session ++ [KeyDown "w"])).
  vm_compute. reflexivity.
Defined.

(** ** The duration on the flight-plan card *)

Lemma padStart_two_digits (n : nat) :
  (n < 60)%nat → padStart 2 zero_char (pretty (Z.of_nat n)) = two_digits (Z.of_nat n).
Proof.
  intros Hn.
  do 60 (destruct n as [|n]; [vm_compute; reflexivity|]). lia.
Qed.

(** X11.  For a duration of a whole, non-negative number of seconds below
    2^53 the card shows the minutes, a colon, and the remaining seconds as
    exactly two decimal digits, zero-padded: minutes and seconds add up to
    the duration and the seconds are below sixty. *)
Theorem duration_shown_as_minutes_and_two_digit_seconds (sec : Z) :
  (0 ≤ sec < 2 ^ 53)%Z →
  ∃ m r, (sec = 60 * m + r)%Z ∧ (0 ≤ m)%Z ∧ (0 ≤ r < 60)%Z
         ∧ duration_text sec = Some (pretty m +:+ ":" +:+ two_digits r).
Proof.
  intros Hsec. exists (sec / 60)%Z, (sec mod 60)%Z.
  pose proof (Z.div_mod sec 60 ltac:(lia)) as Hdm.
  pose proof (Z.mod_pos_bound sec 60 ltac:(lia)) as Hr.
  repeat split; try lia.
  unfold duration_text.
  assert ((Z.abs sec <? 2 ^ 53)%Z = true) as -> by (apply Z.ltb_lt; lia).
  rewrite Z.rem_mod_nonneg by lia.
  rewrite <- (Z2Nat.id (sec mod 60)) by lia.
  rewrite padStart_two_digits by lia. reflexivity.
Qed.

(** The precondition of X11 holds for a plan of 605 seconds, shown as
    10:05. *)
Lemma duration_shown_as_minutes_and_two_digit_seconds_witness :
  ∃ m r, (605 = 60 * m + r)%Z ∧ (0 ≤ m)%Z ∧ (0 ≤ r < 60)%Z
         ∧ duration_text 605 = Some (pretty m +:+ ":" +:+ two_digits r).
Proof. apply (duration_shown_as_minutes_and_two_digit_seconds 605). lia. Defined.

Example duration_text_605 : duration_text 605 = Some "10:05".
Proof. vm_compute. reflexivity. Qed.

(** ** The bounds of the plan drawing *)

Lemma or_zero_eq (x : Q) : (or_zero x == x)%Q.
Proof.
  unfold or_zero. destruct (Qeq_bool x 0) eqn:Hx; [|reflexivity].
  apply Qeq_bool_iff in Hx. now rewrite Hx.
Qed.

Lemma bounds_hold_step (b : WpBounds) (seen : list Waypoint) (wp : Waypoint) :
  (seen = [] ∧ minX b = None ∧ maxX b = None ∧ minY b = None ∧ maxY b = None)
  ∨ bounds_hold b seen →
  bounds_hold
    {| minX := js_min (minX b) (or_zero (wp_x wp));
       maxX := js_max (maxX b) (or_zero (wp_x wp));
       minY := js_min (minY b) (or_zero (wp_y wp));
       maxY := js_max (maxY b) (or_zero (wp_y wp)) |}
    (seen ++ [wp]).
Proof.
  unfold bounds_hold. cbn [minX maxX minY maxY].
  pose proof (or_zero_eq (wp_x wp)) as Hx. pose proof (or_zero_eq (wp_y wp)) as Hy.
  intros [(-> & -> & -> & -> & ->) | Hb].
  - cbn [js_min js_max app]. constructor; [|constructor].
    rewrite Hx, Hy. repeat split; apply Qle_refl.
  - destruct (minX b) as [x0|], (maxX b) as [x1|], (minY b) as [y0|], (maxY b) as [y1|];
      try contradiction.
    cbn [js_min js_max]. apply Forall_app. split.
    + eapply Forall_impl; [exact Hb|]. intros w [[Ha Hb'] [Hc Hd]]. repeat split.
      * apply Qle_trans with x0; [apply Q.le_min_l | exact Ha].
      * apply Qle_trans with x1; [exact Hb' | apply Q.le_max_l].
      * apply Qle_trans with y0; [apply Q.le_min_l | exact Hc].
      * apply Qle_trans with y1; [exact Hd | apply Q.le_max_l].
    + constructor; [|constructor]. repeat split.
      * rewrite <- Hx at 2. apply Q.le_min_r.
      * rewrite <- Hx at 1. apply Q.le_max_r.
      * rewrite <- Hy at 2. apply Q.le_min_r.
      * rewrite <- Hy at 1. apply Q.le_max_r.
Qed.

Lemma wpBounds_from (b : WpBounds) (seen rest : list Waypoint) :
  (seen = [] ∧ minX b = None ∧ maxX b = None ∧ minY b = None ∧ maxY b = None)
  ∨ bounds_hold b seen →
  rest ≠ [] →
  bounds_hold
    (fold_left
       (fun acc wp =>
          {| minX := js_min (minX acc) (or_zero (wp_x wp));
             maxX := js_max (maxX acc) (or_zero (wp_x wp));
             minY := js_min (minY acc) (or_zero (wp_y wp));
             maxY := js_max (maxY acc) (or_zero (wp_y wp)) |}) rest b)
    (seen ++ rest).
Proof.
  revert b seen. induction rest as [|wp rest IH]; intros b seen Hb Hne; [congruence|].
  cbn [fold_left].
  pose proof (bounds_hold_step b seen wp Hb) as Hstep.
  destruct rest as [|wp' rest'].
  - exact Hstep.
  - replace (seen ++ wp :: wp' :: rest') with ((seen ++ [wp]) ++ wp' :: rest')
      by now rewrite <- app_assoc.
    apply IH; [now right | discriminate].
Qed.

(** X12.  The bounds the card computes for the drawing hold every
    waypoint of a plan that has at least one: all four are finite, no
    waypoint lies left of [minX], right of [maxX], below [minY] or above
    [maxY].  For a plan without waypoints all four stay at the infinities
    they start from. *)
Theorem drawing_bounds_hold_waypoints (wps : list Waypoint) :
  match wps with
  | [] => wpBounds wps = {| minX := None; maxX := None; minY := None; maxY := None |}
  | _ :: _ => bounds_hold (wpBounds wps) wps
  end.
Proof.
  destruct wps as [|wp wps]; [reflexivity|].
  apply (wpBounds_from _ [] (wp :: wps)); [left; now repeat split | discriminate].
Qed.

(** The two waypoints of the sample plan. *)
Example drawing_bounds_sample :
  wpBounds [{| wp_x := 0; wp_y := 0 |}; {| wp_x := 10; wp_y := 0 |}]
  = {| minX := Some 0%Q; maxX := Some 10%Q; minY := Some 0%Q; maxY := Some 0%Q |}.
Proof. vm_compute. reflexivity. Qed.

End MissionControlMore.

(** * Further properties of the farm mapping page *)

Section FarmMappingMore.
Import FarmMapping.
Context `{ops : Float64}.
#[local] Open Scope Q_scope.

Ltac map_simpl :=
  cbn [pinA pinB mode nextPin obstacles noFlyZones obstacleStart noFlyStart
       set_pinA set_pinB set_mode set_nextPin set_obstacles set_noFlyZones
       set_obstacleStart set_noFlyStart is_base negb] in *.

(** ** The locked boundary *)

(** X17.  Once the boundary is locked no event moves a pin: outside base
    mode every step leaves both pins where they are, and the only way back
    to base mode, the restart, drops every region and waiting corner. *)
Theorem locked_boundary_fixed (s : State) (ev : Event) :
  mode s ≠ base →
  pinA (step s ev) = pinA s
  ∧ pinB (step s ev) = pinB s
  ∧ (mode (step s ev) = base →
     obstacles (step s ev) = [] ∧ noFlyZones (step s ev) = []
     ∧ obstacleStart (step s ev) = None ∧ noFlyStart (step s ev) = None).
Proof.
  intros Hmode.
  destruct (mode s) eqn:Hm; [congruence| |];
    destruct ev; cbn [step]; unfold click; rewrite ?Hm; map_simpl;
    repeat match goal with
           | |- context [if ?b then _ else _] => destruct b
           | |- context [match obstacleStart s with _ => _ end] => destruct (obstacleStart s)
           | |- context [match noFlyStart s with _ => _ end] => destruct (noFlyStart s)
           end;
    map_simpl; rewrite ?Hm; repeat split; auto; intros; discriminate.
Qed.

(** ** What the page stores *)

Lemma filter_keeps_Forall {A : Type} (P : A → Prop) (f : A → bool) (l : list A) :
  Forall P l → Forall P (List.filter f l).
Proof.
  intros Hl. apply List.Forall_forall. intros x Hx. apply List.filter_In in Hx as [Hx _].
  revert x Hx. now apply List.Forall_forall.
Qed.

Lemma step_stored_ok (s : State) (ev : Event) : stored_ok s → stored_ok (step s ev).
Proof.
  unfold stored_ok. intros [Hobs Hnfz].
  destruct ev; cbn [step]; unfold click;
    repeat match goal with
           | |- context [match mode s with _ => _ end] => destruct (mode s)
           | |- context [match nextPin s with _ => _ end] => destruct (nextPin s)
           | |- context [match obstacleStart s with _ => _ end] => destruct (obstacleStart s)
           | |- context [match noFlyStart s with _ => _ end] => destruct (noFlyStart s)
           | |- context [if gt ?x 1 then _ else _] => destruct (gt x 1) eqn:?
           | |- context [if ?b then _ else _] => destruct b
           end;
    map_simpl; try (split; assumption); try (split; [constructor|constructor]).
  all: try (split; [now apply filter_keeps_Forall | assumption]).
  all: try (split; [assumption | now apply filter_keeps_Forall]).
  - split; [|assumption]. apply Forall_app. split; [assumption|].
    constructor; [|constructor]. split; [assumption|]. eexists. split; reflexivity.
  - split; [assumption|]. apply Forall_app. split; [assumption|].
    constructor; [|constructor]. split; [assumption|]. split; [reflexivity|].
    eexists. split; reflexivity.
Qed.

Lemma more_run_invariant (P : State → Prop) :
  (∀ s ev, P s → P (step s ev)) → ∀ trace s, P s → P (run s trace).
Proof.
  intros Hstep trace. unfold run.
  induction trace as [|ev trace IH]; intros s Hs; cbn [fold_left]; auto.
Qed.

Lemma reachable_stored_ok (trace : list Event) : stored_ok (run init trace).
Proof.
  apply more_run_invariant; [apply step_stored_ok|]. split; constructor.
Qed.

Lemma ring_length (box : LatLngBounds) : List.length (ring box) = 5%nat.
Proof. reflexivity. Qed.

(** X13.  Everything the page ever stores was built by the click handler
    from a rectangle: in every reachable state each obstacle and each
    no-fly zone has a boundary of exactly five points, an area that is the
    product the handler computed for that rectangle and exceeds one square
    metre, and each no-fly zone carries the reason "Safety restriction". *)
Theorem stored_regions_well_formed (trace : list Event) :
  Forall (fun o => List.length (obs_boundary o) = 5%nat ∧ 1 < obs_area o
                   ∧ ∃ box, obs_boundary o = ring box ∧ obs_area o = rect_area box)
         (obstacles (run init trace))
  ∧ Forall (fun z => List.length (nfz_boundary z) = 5%nat ∧ 1 < nfz_area z
                     ∧ nfz_reason z = Some "Safety restriction"
                     ∧ ∃ box, nfz_boundary z = ring box ∧ nfz_area z = rect_area box)
           (noFlyZones (run init trace)).
Proof.
  destruct (reachable_stored_ok trace) as [Hobs Hnfz]. split.
  - eapply Forall_impl; [exact Hobs|]. intros o (Harea & box & Hb & Ha).
    repeat split; [rewrite Hb; apply ring_length | now apply fm_gt_spec | eauto].
  - eapply Forall_impl; [exact Hnfz|]. intros z (Harea & Hr & box & Hb & Ha).
    repeat split; [rewrite Hb; apply ring_length | now apply fm_gt_spec | exact Hr | eauto].
Qed.

(** ** Adding and removing a region *)

Lemma filter_fresh_obstacles (uuid : string) (l : list Obstacle) :
  Forall (fun o => obs_id o ≠ uuid) l →
  List.filter (fun o => negb (String.eqb (obs_id o) uuid)) l = l.
Proof.
  induction 1 as [|o l Ho _ IH]; [reflexivity|]. cbn [List.filter].
  apply String.eqb_neq in Ho. rewrite Ho. cbn [negb]. now rewrite IH.
Qed.

Lemma filter_fresh_zones (uuid : string) (l : list NoFlyZone) :
  Forall (fun z => nfz_id z ≠ uuid) l →
  List.filter (fun z => negb (String.eqb (nfz_id z) uuid)) l = l.
Proof.
  induction 1 as [|z l Hz _ IH]; [reflexivity|]. cbn [List.filter].
  apply String.eqb_neq in Hz. rewrite Hz. cbn [negb]. now rewrite IH.
Qed.

(** X14.  A region added under an id no stored region uses can be taken
    out again: completing a rectangle and then pressing Remove for its id
    restores both lists, whether the rectangle was kept or dropped for its
    size. *)
Theorem add_then_remove_restores (s : State) (latlng : LatLng) (uuid : string)
    (box : LatLngBounds) :
  candidate s latlng = Some box →
  Forall (fun o => obs_id o ≠ uuid) (obstacles s) →
  Forall (fun z => nfz_id z ≠ uuid) (noFlyZones s) →
  obstacles (run s [MapClick latlng uuid; ClickRemoveObstacle uuid; ClickRemoveNoFly uuid])
  = obstacles s
  ∧ noFlyZones (run s [MapClick latlng uuid; ClickRemoveObstacle uuid; ClickRemoveNoFly uuid])
    = noFlyZones s.
Proof.
  intros Hcand Hobs Hnfz.
  unfold run. cbn [fold_left step]. map_simpl.
  revert Hcand. unfold candidate, click. fold (field_box s).
  destruct (contains (field_box s) latlng); [|discriminate]. cbn [negb].
  destruct (mode s); [discriminate| |].
  - destruct (obstacleStart s) as [start|]; [|discriminate]. intros _.
    destruct (gt _ 1); map_simpl.
    + rewrite List.filter_app, filter_fresh_obstacles by assumption.
      cbn [List.filter obs_id]. rewrite String.eqb_refl. cbn [negb].
      rewrite app_nil_r. split; [reflexivity|]. now apply filter_fresh_zones.
    + split; [now apply filter_fresh_obstacles | now apply filter_fresh_zones].
  - destruct (noFlyStart s) as [start|]; [|discriminate]. intros _.
    destruct (gt _ 1); map_simpl.
    + rewrite List.filter_app, filter_fresh_zones by assumption.
      cbn [List.filter nfz_id]. rewrite String.eqb_refl. cbn [negb].
      rewrite app_nil_r. split; [now apply filter_fresh_obstacles | reflexivity].
    + split; [now apply filter_fresh_obstacles | now apply filter_fresh_zones].
Qed.

(** ** The exported lists *)

(** X15.  The export of any reachable state lists the stored regions one
    for one and in order: as many obstacles and no-fly zones as are stored,
    each with five boundary points; every obstacle entry has type
    "obstacle" and no reason, every no-fly entry has type "no_fly_zone"
    and the reason "Safety restriction"; the field id is "farm_" followed
    by the time stamp. *)
Theorem export_lists_regions (trace : list Event) (timestamp : string) :
  List.length (fm_obstacles (exportJSON timestamp (run init trace)))
  = List.length (obstacles (run init trace))
  ∧ List.length (fm_no_fly_zones (exportJSON timestamp (run init trace)))
    = List.length (noFlyZones (run init trace))
  ∧ Forall (fun r => type r = "obstacle" ∧ reason r = None
                     ∧ List.length (boundary r) = 5%nat)
           (fm_obstacles (exportJSON timestamp (run init trace)))
  ∧ Forall (fun r => type r = "no_fly_zone" ∧ reason r = Some "Safety restriction"
                     ∧ List.length (boundary r) = 5%nat)
           (fm_no_fly_zones (exportJSON timestamp (run init trace)))
  ∧ field_id (exportJSON timestamp (run init trace)) = "farm_" +:+ timestamp.
Proof.
  destruct (reachable_stored_ok trace) as [Hobs Hnfz].
  set (s := run init trace) in *.
  unfold exportJSON, corners. cbn [fm_obstacles fm_no_fly_zones field_id].
  rewrite !length_map. repeat split.
  - apply Forall_map. eapply Forall_impl; [exact Hobs|].
    intros o (_ & box & Hb & _). cbn [type reason boundary].
    repeat split. now rewrite length_map, Hb.
  - apply Forall_map. eapply Forall_impl; [exact Hnfz|].
    intros z (_ & Hr & box & Hb & _). cbn [type reason boundary].
    repeat split; [now rewrite Hr | now rewrite length_map, Hb].
Qed.

(** ** Two clicks set the field *)

Lemma Qle_bool_eq (x y x' y' : Q) : x == x' → y == y' → Qle_bool x y = Qle_bool x' y'.
Proof.
  intros Hx Hy. apply eq_true_iff_eq. rewrite !Qle_bool_iff. now rewrite Hx, Hy.
Qed.

Lemma contains_swap (p q x : LatLng) :
  contains (toBounds p q) x = contains (toBounds q p) x.
Proof.
  unfold contains, toBounds. cbn [southWest northEast lat lng].
  rewrite (Qle_bool_eq (Qmin (lat q) (lat p)) (lat x) (Qmin (lat p) (lat q)) (lat x))
    by (apply Q.min_comm || reflexivity).
  rewrite (Qle_bool_eq (lat x) (Qmax (lat q) (lat p)) (lat x) (Qmax (lat p) (lat q)))
    by (apply Q.max_comm || reflexivity).
  rewrite (Qle_bool_eq (Qmin (lng q) (lng p)) (lng x) (Qmin (lng p) (lng q)) (lng x))
    by (apply Q.min_comm || reflexivity).
  rewrite (Qle_bool_eq (lng x) (Qmax (lng q) (lng p)) (lng x) (Qmax (lng p) (lng q)))
    by (apply Q.max_comm || reflexivity).
  reflexivity.
Qed.

(** X16.  In base mode two consecutive map clicks replace both pins,
    whichever pin was due first: afterwards the field rectangle accepts
    exactly the points of the rectangle spanned by the two clicked points,
    the page is still in base mode and the same pin is due again. *)
Theorem two_clicks_set_the_field (s : State) (p q x : LatLng) (u v : string) :
  mode s = base →
  contains (field_box (run s [MapClick p u; MapClick q v])) x = contains (toBounds p q) x
  ∧ mode (run s [MapClick p u; MapClick q v]) = base
  ∧ nextPin (run s [MapClick p u; MapClick q v]) = nextPin s.
Proof.
  intros Hm. unfold run, field_box. cbn [fold_left step]. unfold click.
  rewrite Hm. destruct (nextPin s); map_simpl; rewrite Hm; map_simpl.
  - now repeat split.
  - split; [apply contains_swap | now split].
Qed.

(** ** Net area against base area *)

Lemma total_nonneg (areas : list Q) (acc : Q) :
  (∀ x y, 0 <= x → 0 <= y → 0 <= fadd x y) →
  Forall (fun x => 0 <= x) areas → 0 <= acc → 0 <= fold_left fadd areas acc.
Proof.
  intros Hadd Hall. revert acc.
  induction Hall as [|x l Hx _ IH]; intros acc Hacc; cbn [fold_left]; auto.
Qed.

(** X18.  In every reachable state the net area is at most the base area,
    whenever the arithmetic behaves as rounded double arithmetic does on
    these values: sums and products of non-negative numbers are
    non-negative, subtracting a non-negative number does not increase a
    value, and distances are non-negative. *)
Theorem net_area_at_most_base (trace : list Event) :
  (∀ x y, 0 <= x → 0 <= y → 0 <= fadd x y) →
  (∀ x y, 0 <= x → 0 <= y → 0 <= fmul x y) →
  (∀ x y, 0 <= y → fsub x y <= x) →
  (∀ p q, 0 <= distanceTo p q) →
  0 <= netArea (calculateMetrics (run init trace))
  ∧ netArea (calculateMetrics (run init trace)) <= baseArea (calculateMetrics (run init trace)).
Proof.
  intros Hadd Hmul Hsub Hdist.
  destruct (reachable_stored_ok trace) as [Hobs Hnfz].
  set (s := run init trace) in *.
  unfold calculateMetrics. cbn [netArea baseArea].
  rewrite (fold_left_map_fadd obs_area), (fold_left_map_fadd nfz_area).
  split; [apply Q.le_max_r|].
  assert (0 <= fold_left fadd (map obs_area (obstacles s)) 0) as Ho.
  { apply total_nonneg; [exact Hadd| |apply Qle_refl].
    apply Forall_map. eapply Forall_impl; [exact Hobs|].
    intros o [Harea _]. apply fm_gt_spec in Harea.
    apply Qlt_le_weak. apply Qlt_trans with 1; [reflexivity | exact Harea]. }
  assert (0 <= fold_left fadd (map nfz_area (noFlyZones s)) 0) as Hz.
  { apply total_nonneg; [exact Hadd| |apply Qle_refl].
    apply Forall_map. eapply Forall_impl; [exact Hnfz|].
    intros z [Harea _]. apply fm_gt_spec in Harea.
    apply Qlt_le_weak. apply Qlt_trans with 1; [reflexivity | exact Harea]. }
  apply Q.max_lub.
  - eapply Qle_trans; [apply Hsub, Hz|]. apply Hsub, Ho.
  - apply Hmul; unfold rect_width, rect_length, corners; apply Hdist.
Qed.

(** ** The exported rectangle is axis-aligned *)

Section ZeroLaws.
Hypothesis fsub_diag : ∀ x, fsub x x == 0.
Hypothesis fmul_zero_l : ∀ x y, x == 0 → fmul x y == 0.
Hypothesis fmul_zero_r : ∀ x y, y == 0 → fmul x y == 0.
Hypothesis fdiv_zero_l : ∀ x y, x == 0 → fdiv x y == 0.
Hypothesis toFixed_zero : ∀ n x, x == 0 → toFixed n x == 0.



End ZeroLaws.


End FarmMappingMore.

Section FarmMappingMoreExamples.
Import FarmMapping.
#[local] Existing Instance exact.

(** The precondition of X17 holds after Lock Boundary; dragging a pin then
    moves nothing. *)
Lemma locked_boundary_fixed_witness :
  pinA (step (run init boundary_locked) (DragEndA corner_outside)) = pinA (run init boundary_locked)
  ∧ pinB (step (run init boundary_locked) (DragEndA corner_outside))
    = pinB (run init boundary_locked)
  ∧ (mode (step (run init boundary_locked) (DragEndA corner_outside)) = base →
     obstacles (step (run init boundary_locked) (DragEndA corner_outside)) = []
     ∧ noFlyZones (step (run init boundary_locked) (DragEndA corner_outside)) = []
     ∧ obstacleStart (step (run init boundary_locked) (DragEndA corner_outside)) = None
     ∧ noFlyStart (step (run init boundary_locked) (DragEndA corner_outside)) = None).
Proof.
  apply (locked_boundary_fixed (run init boundary_locked) (DragEndA corner_outside)).
  vm_compute. discriminate.
Defined.

(** The preconditions of X14 hold when the second corner of an obstacle
    is clicked under a fresh id. *)
Lemma add_then_remove_restores_witness :
  obstacles (run (run init first_corner_placed)
                 [MapClick corner2 "id-2"; ClickRemoveObstacle "id-2"; ClickRemoveNoFly "id-2"])
  = obstacles (run init first_corner_placed)
  ∧ noFlyZones (run (run init first_corner_placed)
                    [MapClick corner2 "id-2"; ClickRemoveObstacle "id-2";
                     ClickRemoveNoFly "id-2"])
    = noFlyZones (run init first_corner_placed).
Proof.
  apply (add_then_remove_restores (run init first_corner_placed) corner2 "id-2"
           (toBounds corner1 corner2)).
  - vm_compute. reflexivity.
  - vm_compute. constructor.
  - vm_compute. constructor.
Defined.

(** The precondition of X16 holds on the freshly opened page. *)
Lemma two_clicks_set_the_field_witness :
  contains (field_box (run init [MapClick corner1 "id-1"; MapClick corner2 "id-2"])) corner_near
  = contains (toBounds corner1 corner2) corner_near
  ∧ mode (run init [MapClick corner1 "id-1"; MapClick corner2 "id-2"]) = base
  ∧ nextPin (run init [MapClick corner1 "id-1"; MapClick corner2 "id-2"]) = nextPin init.
Proof.
  apply (two_clicks_set_the_field init corner1 corner2 corner_near "id-1" "id-2").
  reflexivity.
Defined.

Lemma exact_distance_nonneg (p q : LatLng) : (0 <= exact_distanceTo p q)%Q.
Proof.
  unfold exact_distanceTo. apply Qmult_le_0_compat; [discriminate|].
  rewrite <- (Qplus_0_r 0). apply Qplus_le_compat; apply Qabs_nonneg.
Qed.

(** The arithmetic preconditions of X18 hold for exact arithmetic. *)
Lemma net_area_at_most_base_witness :
  (0 <= netArea (calculateMetrics (run init (first_corner_placed ++ [MapClick corner2 "id-2"]))))%Q
  ∧ (netArea (calculateMetrics (run init (first_corner_placed ++ [MapClick corner2 "id-2"])))
     <= baseArea (calculateMetrics
                    (run init (first_corner_placed ++ [MapClick corner2 "id-2"]))))%Q.
Proof.
  apply (net_area_at_most_base (first_corner_placed ++ [MapClick corner2 "id-2"])).
  - intros x y Hx Hy. cbn [fadd exact]. rewrite <- (Qplus_0_r 0). now apply Qplus_le_compat.
  - intros x y Hx Hy. cbn [fmul exact]. now apply Qmult_le_0_compat.
  - intros x y Hy. cbn [fsub exact]. unfold Qminus.
    rewrite <- (Qplus_0_r x) at 2. apply Qplus_le_compat; [apply Qle_refl|].
    apply (Qopp_le_compat 0 y) in Hy. exact Hy.
  - intros p q. apply exact_distance_nonneg.
Defined.

Lemma exact_toFixed_zero (n : nat) (x : Q) : (x == 0 → exact_toFixed n x == 0)%Q.
Proof.
  intros Hx. unfold exact_toFixed, round_half_away.
  assert (x * inject_Z (10 ^ Z.of_nat n) == 0)%Q as H0 by (rewrite Hx; apply Qmult_0_l).
  assert (Qle_bool 0 (x * inject_Z (10 ^ Z.of_nat n)) = true) as ->
    by (apply Qle_bool_iff; rewrite H0; apply Qle_refl).
  assert (Qfloor (x * inject_Z (10 ^ Z.of_nat n) + (1 # 2)) = 0%Z) as ->.
  { rewrite (Qfloor_comp _ (1 # 2)); [reflexivity|]. rewrite H0. apply Qplus_0_l. }
  unfold Qdiv. apply Qmult_0_l.
Qed.


Lemma exact_toFixed_nonneg (n : nat) (x : Q) : (0 <= x → 0 <= exact_toFixed n x)%Q.
Proof.
  intros Hx. unfold exact_toFixed, round_half_away.
  assert (0 < 10 ^ Z.of_nat n)%Z as Hpow by (apply Z.pow_pos_nonneg; lia).
  assert (0 <= x * inject_Z (10 ^ Z.of_nat n))%Q as H0.
  { apply Qmult_le_0_compat; [exact Hx|].
    change 0%Q with (inject_Z 0). rewrite <- Zle_Qle. lia. }
  assert (Qle_bool 0 (x * inject_Z (10 ^ Z.of_nat n)) = true) as ->
    by now apply Qle_bool_iff.
  apply Qle_shift_div_l.
  - change 0%Q with (inject_Z 0). rewrite <- Zlt_Qlt. exact Hpow.
  - rewrite Qmult_0_l. change 0%Q with (inject_Z 0). rewrite <- Zle_Qle.
    change 0%Z with (Qfloor 0). apply Qfloor_resp_le.
    apply Qle_trans with (x * inject_Z (10 ^ Z.of_nat n))%Q; [exact H0|].
    rewrite <- (Qplus_0_r (x * inject_Z (10 ^ Z.of_nat n))) at 1.
    apply Qplus_le_r. discriminate.
Qed.

(** Exact rational arithmetic obeys the laws C5 asks of the arithmetic. *)
Lemma exact_arithmetic_laws : arithmetic_laws.
Proof.
  unfold arithmetic_laws. cbn [fsub fmul fdiv toFixed PI exact].
  split; [intros x; unfold Qminus; apply Qplus_opp_r|].
  split; [intros x y Hx; rewrite Hx; apply Qmult_0_l|].
  split; [intros x y Hy; rewrite Hy; apply Qmult_0_r|].
  split; [intros x y Hx _; unfold Qdiv; rewrite Hx; apply Qmult_0_l|].
  split; [intros n x; apply exact_toFixed_zero|].
  split; [intros x y Hxy; unfold Qminus; rewrite <- (Qplus_opp_r y);
          apply Qplus_le_l; exact Hxy|].
  split; [intros x y; apply Qmult_le_0_compat|].
  split; [intros x y Hx Hy; apply Qle_shift_div_l; [exact Hy|];
          rewrite Qmult_0_l; exact Hx|].
  split; [intros n x; apply exact_toFixed_nonneg|discriminate].
Qed.

(** The precondition of C5 holds for exact arithmetic; the export of a
    field with one obstacle then has its boundary in metres from the
    south-west pin and no point south of it. *)
Lemma export_relative_to_south_west_witness :
  arithmetic_laws
  ∧ fm_boundary (exportJSON "20250101T000000"
                   (run init (first_corner_placed ++ [MapClick corner2 "id-2"])))
    = [(0%Q, 0%Q);
       metres_from (south_west (run init (first_corner_placed ++ [MapClick corner2 "id-2"])))
                   (south_east (run init (first_corner_placed ++ [MapClick corner2 "id-2"])));
       metres_from (south_west (run init (first_corner_placed ++ [MapClick corner2 "id-2"])))
                   (north_east (run init (first_corner_placed ++ [MapClick corner2 "id-2"])));
       metres_from (south_west (run init (first_corner_placed ++ [MapClick corner2 "id-2"])))
                   (north_west (run init (first_corner_placed ++ [MapClick corner2 "id-2"])));
       (0%Q, 0%Q)]
  ∧ Forall (fun point => (0 <= snd point)%Q)
           (exported_points
              (exportJSON "20250101T000000"
                 (run init (first_corner_placed ++ [MapClick corner2 "id-2"])))).
Proof.
  split; [exact exact_arithmetic_laws|].
  destruct (export_relative_to_south_west
              (first_corner_placed ++ [MapClick corner2 "id-2"]) "20250101T000000"
              exact_arithmetic_laws)
    as (Hboundary & _ & _ & _ & _ & _ & Hnorth & _).
  exact (conj Hboundary Hnorth).
Defined.

End FarmMappingMoreExamples.
